(** * RoverUI camera relay: frame buffer, ingest connector, broadcast handler

    A shallow embedding of [src/CAM/roverUI.py]:
    - [CameraFrameBuffer] (the four dictionaries and their methods),
    - [receive_camera_feed] (the reconnecting ingest loop of one camera),
    - [broadcast_camera_feed] (the per-viewer broadcast loop).

    Python dictionaries are finite maps ([gmap]) keyed by the camera
    identifier, Python integers are [Z], [bytes] are lists of bytes and
    [str] is [string].  Methods that mutate the buffer and may raise are
    functions in a small state-and-exception monad: the buffer that comes
    out of a raising call keeps every assignment made before the raise,
    as the Python object does. *)

From Stdlib Require Import ZArith Lia.
From stdpp Require Import gmap strings list fin_maps.

Local Open Scope string_scope.
Local Open Scope Z_scope.
Local Open Scope list_scope.

(** ** Python values, exceptions and results *)

Definition bytes := list Byte.byte.

(** [datetime] values are instants; only equality of instants matters. *)
Definition datetime := Z.

(** What [json.loads] can return.  A dict is the list of its items,
    each key once. *)
#[local] Set Warnings "-register-all".
Inductive pyval :=
| PyNone
| PyBool (b : bool)
| PyInt (n : Z)
| PyFloat (literal : string)
| PyStr (s : string)
| PyList (items : list pyval)
| PyDict (items : list (string * pyval)).

(** The exception classes the module meets.  Every one of them derives
    from [Exception]; [json.JSONDecodeError], [UnicodeDecodeError] and
    [binascii.Error] all derive from [ValueError] but are distinct
    classes, so they are distinct constructors here. *)
Inductive exn :=
| JSONDecodeError
| UnicodeDecodeError
| BinasciiError
| KeyError
| TypeError
| CvError
| TimeoutError
| ConnectionClosed
| ConnectionRefusedError
| RecursionError
| RuntimeError
| OtherException.

Inductive result (A : Type) :=
| Ok (a : A)
| Raise (e : exn).
Arguments Ok {A} a.
Arguments Raise {A} e.

Global Instance exn_eq_dec : EqDecision exn.
Proof. solve_decision. Defined.

(** [str.encode()] and [bytes.decode('utf-8')] on the text the module
    handles (base64 text): a [str] is kept as the sequence of its
    UTF-8 bytes, so [bytes_decode] is [bytes.decode('utf-8')] on the
    bytes [str_encode] gives.  On bytes that are not UTF-8 Python's
    [decode] raises [UnicodeDecodeError]; [bytes_decode] is used only
    on bytes that [str_encode] produced wherever a property below
    depends on its result. *)
Definition str_encode (s : string) : bytes := String.list_byte_of_string s.
Definition bytes_decode (b : bytes) : string := String.string_of_list_byte b.

(** ** Configuration *)

Record CameraConfig := {
  name : string;
  source_url : string;
  source_port : Z;
  broadcast_port : Z;
  camera_id : string
}.

Definition CAMERA_CONFIGS : list CameraConfig := [
  Build_CameraConfig "Front View" "ws://192.168.0.5" 8765 9001 "front_view";
  Build_CameraConfig "Rear View" "ws://192.168.0.5" 8766 9002 "rear_view";
  Build_CameraConfig "Top View" "ws://192.168.0.5" 8767 9003 "top_view";
  Build_CameraConfig "Arm Camera" "ws://192.168.0.5" 8768 9004 "arm_camera";
  Build_CameraConfig "ZED RGB" "ws://192.168.0.5" 8769 9005 "zed_rgb";
  Build_CameraConfig "ZED Depth" "ws://192.168.0.5" 8770 9006 "zed_depth";
  Build_CameraConfig "Extra Camera" "ws://192.168.0.5" 8771 9007 "extra_camera"
].

Definition configured_ids : list string := camera_id <$> CAMERA_CONFIGS.

(** ** The frame buffer *)

Record CameraFrameBuffer := {
  frames : gmap string (option bytes);
  timestamps : gmap string (option datetime);
  frame_counts : gmap string Z;
  connection_status : gmap string bool
}.

(** [{cfg.camera_id: v for cfg in CAMERA_CONFIGS}]: later entries
    overwrite earlier ones. *)
Definition dict_of_configs {V : Type} (v : V) (cfgs : list CameraConfig)
  : gmap string V :=
  foldl (λ d cfg, <[camera_id cfg := v]> d) ∅ cfgs.

(** [CameraFrameBuffer.__init__], and the module-level [frame_buffer]. *)
Definition init_buffer : CameraFrameBuffer := {|
  frames := dict_of_configs None CAMERA_CONFIGS;
  timestamps := dict_of_configs None CAMERA_CONFIGS;
  frame_counts := dict_of_configs 0 CAMERA_CONFIGS;
  connection_status := dict_of_configs false CAMERA_CONFIGS
|}.

Definition frame_buffer : CameraFrameBuffer := init_buffer.

(** The state-and-exception monad of the buffer's methods. *)
Definition M (A : Type) : Type :=
  CameraFrameBuffer → CameraFrameBuffer * result A.

Definition ret {A} (a : A) : M A := λ self, (self, Ok a).
Definition bind {A B} (m : M A) (k : A → M B) : M B :=
  λ self, match m self with
          | (self', Ok a) => k a self'
          | (self', Raise e) => (self', Raise e)
          end.
Definition lift {A} (r : result A) : M A := λ self, (self, r).

(** [try: m  except Exception: h] *)
Definition try_except {A} (m : M A) (h : exn → M A) : M A :=
  λ self, match m self with
          | (self', Ok a) => (self', Ok a)
          | (self', Raise e) => h e self'
          end.

Notation "x ←' m ; k" := (bind m (λ x, k))
  (at level 20, m at level 100, k at level 200, right associativity,
   format "x  ←'  m ;  '/' k").
Notation "m ;;' k" := (bind m (λ _, k))
  (at level 100, k at level 200, right associativity).

(** The argument of [set_frame]: annotated [str], but the body also
    accepts [bytes] ([isinstance(frame_base64, str)]). *)
Inductive payload :=
| Str (s : string)
| Bytes (b : bytes).

(** [frame_base64.encode() if isinstance(frame_base64, str) else frame_base64] *)
Definition payload_bytes (p : payload) : bytes :=
  match p with
  | Str s => str_encode s
  | Bytes b => b
  end.

(** The three statements of [set_frame], one at a time. *)
Definition store_frame (camera_id : string) (b : bytes) : M unit :=
  λ self, ({| frames := <[camera_id := Some b]> (frames self);
              timestamps := timestamps self;
              frame_counts := frame_counts self;
              connection_status := connection_status self |}, Ok tt).

Definition store_timestamp (camera_id : string) (t : datetime) : M unit :=
  λ self, ({| frames := frames self;
              timestamps := <[camera_id := Some t]> (timestamps self);
              frame_counts := frame_counts self;
              connection_status := connection_status self |}, Ok tt).

(** [self.frame_counts[camera_id] += 1]: the read raises [KeyError] on a
    missing key, before anything is written to [frame_counts]. *)
Definition bump_frame_count (camera_id : string) : M unit :=
  λ self, match frame_counts self !! camera_id with
          | Some n =>
              ({| frames := frames self;
                  timestamps := timestamps self;
                  frame_counts := <[camera_id := n + 1]> (frame_counts self);
                  connection_status := connection_status self |}, Ok tt)
          | None => (self, Raise KeyError)
          end.

(** [set_frame(camera_id, frame_base64, timestamp=None)]; [now] is the
    value [datetime.now()] returns if it is called ([timestamp or
    datetime.now()]: a [datetime] is always truthy). *)
Definition set_frame (camera_id : string) (frame_base64 : payload)
    (timestamp : option datetime) (now : datetime) : M unit :=
  store_frame camera_id (payload_bytes frame_base64) ;;'
  store_timestamp camera_id (default now timestamp) ;;'
  bump_frame_count camera_id.

(** [get_frame]: [self.frames.get(camera_id)]; [None] is the absent
    marker, for a missing key and for a key still holding [None]. *)
Definition get_frame (self : CameraFrameBuffer) (camera_id : string)
  : option bytes :=
  default None (frames self !! camera_id).

Definition set_connection_status (camera_id : string) (connected : bool)
  : M unit :=
  λ self, ({| frames := frames self;
              timestamps := timestamps self;
              frame_counts := frame_counts self;
              connection_status := <[camera_id := connected]> (connection_status self) |},
           Ok tt).

(** [self.connection_status.get(camera_id, False)] *)
Definition get_connection_status (self : CameraFrameBuffer) (camera_id : string)
  : bool :=
  default false (connection_status self !! camera_id).

(** [self.frame_counts.get(camera_id, 0)] *)
Definition get_frame_count (self : CameraFrameBuffer) (camera_id : string) : Z :=
  default 0 (frame_counts self !! camera_id).

(** ** The ingest connector: [receive_camera_feed] *)

(** What [websocket.recv()] hands to [json.loads], described by what
    [json.loads] does with it: text it rejects with [JSONDecodeError];
    a binary message it fails to decode as text, with
    [UnicodeDecodeError] (the single byte 0xff, say); text nested so
    deep that it gives up with [RecursionError]; or a JSON document,
    with its value. *)
Inductive data :=
| NotJson
| NotUtf8
| TooDeep
| Json (v : pyval).

Definition json_loads (d : data) : result pyval :=
  match d with
  | NotJson => Raise JSONDecodeError
  | NotUtf8 => Raise UnicodeDecodeError
  | TooDeep => Raise RecursionError
  | Json v => Ok v
  end.

Fixpoint dict_lookup (key : string) (items : list (string * pyval))
  : option pyval :=
  match items with
  | [] => None
  | (k, v) :: rest => if String.eqb k key then Some v else dict_lookup key rest
  end.

(** [message[key]] for a string key: only a dict can be subscripted by
    a string; a missing key raises [KeyError], any other value raises
    [TypeError]. *)
Definition getitem (message : pyval) (key : string) : result pyval :=
  match message with
  | PyDict items =>
      match dict_lookup key items with
      | Some v => Ok v
      | None => Raise KeyError
      end
  | _ => Raise TypeError
  end.

(** What the receiver does to the outside world, in program order. *)
Inductive effect :=
| Connect                 (* [websockets.connect(source_url, ...)] is entered *)
| Close                   (* the [async with] block is left: the socket is closed *)
| Sleep (seconds : Z).    (* [await asyncio.sleep(seconds)] *)

(** Where the coroutine is suspended: in [websockets.connect], in
    [websocket.recv], or nowhere because it has returned. *)
Inductive phase :=
| Connecting
| Streaming
| Returned.

Record receiver := {
  phase_of : phase;
  retry_count : Z
}.

(** What resumes the coroutine: the outcome of the pending
    [websockets.connect], or the outcome of the pending
    [asyncio.wait_for(websocket.recv(), timeout=30)] together with the
    clock reading at that moment. *)
Inductive event :=
| Connected (r : result unit)
| Received (now : datetime) (r : result data).

Inductive loop_control :=
| Continue
| Break.

Global Instance phase_eq_dec : EqDecision phase.
Proof. solve_decision. Defined.

Global Instance effect_eq_dec : EqDecision effect.
Proof. solve_decision. Defined.

(** The waits slept, in order. *)
Definition sleeps (effects : list effect) : list Z :=
  omap (λ e, match e with Sleep n => Some n | _ => None end) effects.

(** The number of connection attempts made. *)
Definition attempts (effects : list effect) : nat :=
  length (filter (λ e, e = Connect) effects).

Section Ingest.

(** The image and base64 libraries, as the module calls them. *)
Variable ndarray : Type.
(** [base64.b64decode] on a [str]: [None] when it raises
    [binascii.Error] (or the plain [ValueError] for non-ASCII text). *)
Variable b64decode_str : string → option bytes.
(** [cv2.imdecode(np.frombuffer(b, np.uint8), cv2.IMREAD_COLOR)]:
    an image, [None], or an exception. *)
Variable imdecode : bytes → result (option ndarray).
(** [cv2.imencode('.jpg', frame, [cv2.IMWRITE_JPEG_QUALITY, 85])] *)
Variable imencode : ndarray → result (bool * bytes).
(** [base64.b64encode(buffer).decode('utf-8')] *)
Variable b64encode_str : bytes → string.

(** [base64.b64decode(x)]: anything that is not text raises
    [TypeError]. *)
Definition b64decode (x : pyval) : result bytes :=
  match x with
  | PyStr s =>
      match b64decode_str s with
      | Some b => Ok b
      | None => Raise BinasciiError
      end
  | _ => Raise TypeError
  end.

(** Lines 116-117: [json.loads(data)] then
    [base64.b64decode(message['image'])]. *)
Definition parse_message (d : data) : result bytes :=
  match json_loads d with
  | Raise e => Raise e
  | Ok message =>
      match getitem message "image" with
      | Raise e => Raise e
      | Ok image => b64decode image
      end
  end.

(** [except (json.JSONDecodeError, KeyError)] *)
Definition invalid_message_format (e : exn) : bool :=
  match e with
  | JSONDecodeError | KeyError => true
  | _ => false
  end.

(** [frame_buffer.frame_counts[config.camera_id]], read for the debug
    log line. *)
Definition read_frame_count (camera_id : string) : M Z :=
  λ self, match frame_counts self !! camera_id with
          | Some n => (self, Ok n)
          | None => (self, Raise KeyError)
          end.

(** Lines 123-138, the body of the second [try]. *)
Definition process_frame (config : CameraConfig) (now : datetime)
    (jpg_bytes : bytes) : M unit :=
  frame ←' lift (imdecode jpg_bytes);
  match frame with
  | None => ret tt
  | Some frame =>
      encoded ←' lift (imencode frame);
      if encoded.1 then
        set_frame (camera_id config) (Str (b64encode_str encoded.2)) None now ;;'
        _ ←' read_frame_count (camera_id config);
        ret tt
      else ret tt
  end.

(** One turn of the inner [while True] (lines 112-148), resumed with
    the outcome of [recv]. *)
Definition stream_iteration (config : CameraConfig) (now : datetime)
    (received : result data) : M loop_control :=
  match received with
  | Raise TimeoutError => ret Break
  | Raise _ => ret Break
  | Ok d =>
      match parse_message d with
      | Raise e =>
          if invalid_message_format e then ret Continue
          else ret Break                  (* caught by line 146 *)
      | Ok jpg_bytes =>
          try_except (process_frame config now jpg_bytes) (λ _, ret tt) ;;'
          ret Continue
      end
  end.

(** [except (websockets.exceptions.ConnectionClosed, ConnectionRefusedError)] *)
Definition connection_lost (e : exn) : bool :=
  match e with
  | ConnectionClosed | ConnectionRefusedError => true
  | _ => false
  end.

(** One resumption of [receive_camera_feed(config, max_retries)]:
    the new local state and what the coroutine does before it
    suspends again. *)
Definition step (config : CameraConfig) (max_retries : Z)
    (task : receiver) (ev : event) : M (receiver * list effect) :=
  match phase_of task, ev with
  | Connecting, Connected (Ok _) =>
      set_connection_status (camera_id config) true ;;'
      ret ({| phase_of := Streaming; retry_count := 0 |}, [])
  | Connecting, Connected (Raise e) =>
      if connection_lost e then
        set_connection_status (camera_id config) false ;;'
        let retries := (retry_count task + 1)%Z in
        if (max_retries <? retries)%Z then
          ret ({| phase_of := Returned; retry_count := retries |}, [])
        else
          let wait_time := Z.min (2 ^ retries) 30 in
          ret ({| phase_of := Connecting; retry_count := retries |},
               [Sleep wait_time; Connect])
      else
        set_connection_status (camera_id config) false ;;'
        ret ({| phase_of := Connecting; retry_count := retry_count task |},
             [Sleep 5; Connect])
  | Streaming, Received now r =>
      control ←' stream_iteration config now r;
      match control with
      | Continue => ret (task, [])
      | Break =>
          ret ({| phase_of := Connecting; retry_count := retry_count task |},
               [Close; Connect])
      end
  | _, _ => ret (task, [])
  end.

(** A camera's receiver together with the shared buffer and the
    record of what it has done so far. *)
Record world := {
  buffer : CameraFrameBuffer;
  task : receiver;
  log : list effect
}.

(** The coroutine is created with [retry_count = 0] and runs up to its
    first [websockets.connect]. *)
Definition start (self : CameraFrameBuffer) : world := {|
  buffer := self;
  task := {| phase_of := Connecting; retry_count := 0 |};
  log := [Connect]
|}.

Definition advance (config : CameraConfig) (max_retries : Z)
    (w : world) (ev : event) : world :=
  match step config max_retries (task w) ev (buffer w) with
  | (self, Ok (task', effects)) =>
      {| buffer := self; task := task'; log := log w ++ effects |}
  | (self, Raise _) =>
      {| buffer := self; task := task w; log := log w |}
  end.

Definition run (config : CameraConfig) (max_retries : Z)
    (w : world) (evs : list event) : world :=
  foldl (advance config max_retries) w evs.

(** [receive_camera_feed(config)] as [main] creates it:
    [max_retries] has its default, the buffer is [frame_buffer]. *)
Definition receive_camera_feed (config : CameraConfig) (evs : list event)
  : world :=
  run config 5 (start frame_buffer) evs.

(** When [stream_iteration] stores a frame: the message parses, the
    image decodes and the re-encoding reports success.  The result is
    the text handed to [set_frame]. *)
Definition re_encoded (d : data) : option string :=
  match parse_message d with
  | Ok jpg_bytes =>
      match imdecode jpg_bytes with
      | Ok (Some frame) =>
          match imencode frame with
          | Ok (true, buffer) => Some (b64encode_str buffer)
          | _ => None
          end
      | _ => None
      end
  | Raise _ => None
  end.

(** ** All receivers together: [main]

    [receiver_tasks = [receive_camera_feed(config) for config in
    CAMERA_CONFIGS]] run interleaved on one event loop over the one
    [frame_buffer].  A schedule names, for each resumption, the index
    of the receiver that is resumed and the event that resumes it. *)
Record system := {
  shared : CameraFrameBuffer;
  receiver_tasks : list receiver
}.

Definition main_start : system := {|
  shared := frame_buffer;
  receiver_tasks :=
    (λ _, {| phase_of := Connecting; retry_count := 0 |}) <$> CAMERA_CONFIGS
|}.

Definition resume (sys : system) (turn : nat * event) : system :=
  match CAMERA_CONFIGS !! turn.1, receiver_tasks sys !! turn.1 with
  | Some config, Some t =>
      match step config 5 t turn.2 (shared sys) with
      | (self, Ok (t', _)) =>
          {| shared := self;
             receiver_tasks := <[turn.1 := t']> (receiver_tasks sys) |}
      | (self, Raise _) =>
          {| shared := self; receiver_tasks := receiver_tasks sys |}
      end
  | _, _ => sys
  end.

Definition main (schedule : list (nat * event)) : system :=
  foldl resume main_start schedule.

(** Does this resumption deliver a frame that receiver [i] accepts? *)
Definition accepts (sys : system) (i : nat) (turn : nat * event) : bool :=
  bool_decide (turn.1 = i) &&
  match receiver_tasks sys !! i, turn.2 with
  | Some t, Received _ (Ok d) =>
      bool_decide (phase_of t = Streaming) && bool_decide (is_Some (re_encoded d))
  | _, _ => false
  end.

(** The number of frames receiver [i] accepts along a schedule. *)
Fixpoint accepted_frames (i : nat) (sys : system)
    (schedule : list (nat * event)) : Z :=
  match schedule with
  | [] => 0
  | turn :: rest =>
      (if accepts sys i turn then 1 else 0)
      + accepted_frames i (resume sys turn) rest
  end.

End Ingest.

(** ** The broadcast handler: [broadcast_camera_feed] *)

Section Broadcast.

(** [datetime.isoformat] *)
Variable isoformat : datetime → string.

(** Truth value of [frame] in [if frame:], for [frame] a [bytes]
    object or [None]. *)
Definition truthy (frame : option bytes) : bool :=
  match frame with
  | None => false
  | Some [] => false
  | Some (_ :: _) => true
  end.

(** Lines 176-201: the [response] dictionary of one tick, keys in
    insertion order, for a buffer whose frame (if any) was stored as
    text; [frame.decode('utf-8')] of line 184 raises on other bytes. *)
Definition response (config : CameraConfig) (self : CameraFrameBuffer)
    (now : datetime) : list (string * pyval) :=
  let frame := get_frame self (camera_id config) in
  let status := get_connection_status self (camera_id config) in
  if truthy frame then
    [ ("camera_id", PyStr (camera_id config));
      ("camera_name", PyStr (name config));
      ("timestamp", PyStr (isoformat now));
      ("image", PyStr (bytes_decode (default [] frame)));
      ("is_grayscale", PyBool false);
      ("source_connected", PyBool status) ]
  else
    [ ("camera_id", PyStr (camera_id config));
      ("camera_name", PyStr (name config));
      ("timestamp", PyStr (isoformat now));
      ("image", PyNone);
      ("is_grayscale", PyBool false);
      ("source_connected", PyBool status);
      ("message", PyStr "Waiting for first frame...") ].

(** The handler's loop.  Each tick comes with the buffer as it is at
    that moment, the clock reading, and the outcome of
    [websocket.send]; the result lists the dictionaries passed to
    [websocket.send(json.dumps(response))].  A send that raises ends
    the handler ([break] on [ConnectionClosed], the outer [except]
    otherwise). *)
Fixpoint broadcast_camera_feed (config : CameraConfig)
    (ticks : list (CameraFrameBuffer * datetime * result unit))
  : list (list (string * pyval)) :=
  match ticks with
  | [] => []
  | (self, now, sent) :: rest =>
      response config self now ::
      match sent with
      | Ok _ => broadcast_camera_feed config rest
      | Raise _ => []
      end
  end.

End Broadcast.

(** The keys of a dictionary, in order. *)
Definition keys (d : list (string * pyval)) : list string := fst <$> d.

(** ** Call sequences on the buffer *)

(** The two mutating methods, as calls made on the shared buffer. *)
Inductive call :=
| SetFrame (camera_id : string) (frame_base64 : payload)
    (timestamp : option datetime) (now : datetime)
| SetConnectionStatus (camera_id : string) (connected : bool).

(** The buffer after a call; a call that raises leaves the buffer as
    it was at the raise. *)
Definition perform (self : CameraFrameBuffer) (c : call) : CameraFrameBuffer :=
  match c with
  | SetFrame camera_id frame_base64 timestamp now =>
      (set_frame camera_id frame_base64 timestamp now self).1
  | SetConnectionStatus camera_id connected =>
      (set_connection_status camera_id connected self).1
  end.

(** The payload of the most recent [set_frame] call for a camera. *)
Fixpoint last_set_frame (camera_id : string) (calls : list call)
  : option payload :=
  match calls with
  | [] => None
  | c :: rest =>
      match last_set_frame camera_id rest with
      | Some p => Some p
      | None =>
          match c with
          | SetFrame id p _ _ => if decide (id = camera_id) then Some p else None
          | SetConnectionStatus _ _ => None
          end
      end
  end.

(** ** Stand-ins for the libraries, for concrete runs

    An image is its own encoding, base64 is the identity on text, and
    the empty byte string is not an image. *)
Module Demo.
Definition ndarray : Type := bytes.
Definition b64decode_str (s : string) : option bytes := Some (str_encode s).
Definition imdecode (b : bytes) : result (option ndarray) :=
  match b with
  | [] => Ok None
  | _ => Ok (Some b)
  end.
Definition imencode (frame : ndarray) : result (bool * bytes) :=
  Ok (true, frame).
Definition b64encode_str (b : bytes) : string := bytes_decode b.
Definition isoformat (t : datetime) : string := "2024-01-01T00:00:00".

Definition front_view : CameraConfig :=
  Build_CameraConfig "Front View" "ws://192.168.0.5" 8765 9001 "front_view".

(** [{"image": s}] *)
Definition image_message (s : string) : data :=
  Json (PyDict [("image", PyStr s)]).

Definition receive := receive_camera_feed ndarray b64decode_str imdecode imencode b64encode_str.
End Demo.

(** ** The documented behaviour, in the documentation's words *)

(** "wait [min(2^retryCount, 30)] time units": the wait before retry
    number [k]. *)
Definition backoff_wait (k : Z) : Z := Z.min (2 ^ k) 30.

(** The first [n] waits of the backoff sequence 2, 4, 8, 16, 30, 30, ... *)
Definition backoff_schedule (n : nat) : list Z :=
backoff_wait <$> seqZ 1 (Z.of_nat n).

(** The field names the documented broadcast message may have. *)
Definition documented_fields : list string :=
["camera_id"; "camera_name"; "timestamp"; "image"; "source_connected";
 "message"].

(** The shape of the messages the handler builds: six fields in this
    order, [image] a base64 text (a text the encoder [b64encode_str]
    produces) and no [message]; or [image] null and a seventh field
    [message] with the waiting text. *)
Definition broadcast_shape (b64encode_str : bytes → string)
  (isoformat : datetime → string) (msg : list (string * pyval)) : Prop :=
∃ (id camera_name : string) (now : datetime) (connected : bool),
  (∃ buffer : bytes,
     msg = [ ("camera_id", PyStr id);
             ("camera_name", PyStr camera_name);
             ("timestamp", PyStr (isoformat now));
             ("image", PyStr (b64encode_str buffer));
             ("is_grayscale", PyBool false);
             ("source_connected", PyBool connected) ])
  ∨ msg = [ ("camera_id", PyStr id);
            ("camera_name", PyStr camera_name);
            ("timestamp", PyStr (isoformat now));
            ("image", PyNone);
            ("is_grayscale", PyBool false);
            ("source_connected", PyBool connected);
            ("message", PyStr "Waiting for first frame...") ].

(** ** The status reporter: [get_status] and [health_check_handler] *)

Section Status.

(** [datetime.isoformat] *)
Variable isoformat : datetime → string.

(** The inner dictionary of [get_status] for one camera (lines 80-84).
    [connection_status] and [frame_counts] are read with [.get] and a
    default; [timestamps] is subscripted, which raises [KeyError] on a
    missing key. *)
Definition status_entry (self : CameraFrameBuffer) (camera_id : string)
  : result (list (string * pyval)) :=
  match timestamps self !! camera_id with
  | None => Raise KeyError
  | Some t =>
      Ok [ ("connected", PyBool (get_connection_status self camera_id));
           ("frames_received", PyInt (get_frame_count self camera_id));
           ("last_frame",
            match t with
            | Some t => PyStr (isoformat t)
            | None => PyNone
            end) ]
  end.

(** The comprehension [{camera_id: ... for camera_id in ids}]: the
    first entry that raises ends it. *)
Fixpoint status_entries (self : CameraFrameBuffer) (ids : list string)
  : result (gmap string (list (string * pyval))) :=
  match ids with
  | [] => Ok ∅
  | id :: rest =>
      match status_entry self id with
      | Raise e => Raise e
      | Ok entry =>
          match status_entries self rest with
          | Raise e => Raise e
          | Ok cameras => Ok (<[id := entry]> cameras)
          end
      end
  end.

(** [get_status()]: the pair of the ["timestamp"] text and the
    ["cameras"] dictionary, one entry per key of [self.frames]. *)
Definition get_status (self : CameraFrameBuffer) (now : datetime)
  : result (string * gmap string (list (string * pyval))) :=
  match status_entries self (elements (dom (frames self))) with
  | Raise e => Raise e
  | Ok cameras => Ok (isoformat now, cameras)
  end.

(** How a handler's loop stands after the ticks it was given. *)
Inductive handler_end :=
| Suspended               (* waiting in [asyncio.sleep] for the next tick *)
| Finished                (* the coroutine returned *)
| Escaped (e : exn).      (* an exception left the coroutine *)

(** [health_check_handler]: each tick comes with the buffer at that
    moment, the clock reading and the outcome of [websocket.send].
    Only [ConnectionClosed] is caught (and ends the handler quietly);
    anything else, a [KeyError] of [get_status] included, leaves the
    coroutine. *)
Fixpoint health_check_handler
    (ticks : list (CameraFrameBuffer * datetime * result unit))
  : list (string * gmap string (list (string * pyval))) * handler_end :=
  match ticks with
  | [] => ([], Suspended)
  | (self, now, sent) :: rest =>
      match get_status self now with
      | Raise ConnectionClosed => ([], Finished)
      | Raise e => ([], Escaped e)
      | Ok status =>
          match sent with
          | Ok _ =>
              let after := health_check_handler rest in
              (status :: after.1, after.2)
          | Raise ConnectionClosed => ([status], Finished)
          | Raise e => ([status], Escaped e)
          end
      end
  end.

End Status.

(** ** Views of the buffer and of a schedule *)

(** Everything the buffer holds for one camera. *)
Definition slot (self : CameraFrameBuffer) (camera_id : string)
  : option (option bytes) * option (option datetime) * option Z * option bool :=
  (frames self !! camera_id, timestamps self !! camera_id,
   frame_counts self !! camera_id, connection_status self !! camera_id).

(** The events of a schedule that resume receiver [i]. *)
Definition events_of (i : nat) (schedule : list (nat * event)) : list event :=
  omap (λ turn : nat * event,
          if decide (turn.1 = i) then Some turn.2 else None) schedule.

(** The status given by the most recent [set_connection_status] call
    for a camera. *)
Fixpoint last_connection_status (camera_id : string) (calls : list call)
  : option bool :=
  match calls with
  | [] => None
  | c :: rest =>
      match last_connection_status camera_id rest with
      | Some connected => Some connected
      | None =>
          match c with
          | SetConnectionStatus id connected =>
              if decide (id = camera_id) then Some connected else None
          | SetFrame _ _ _ _ => None
          end
      end
  end.

(** The number of [set_frame] calls for a camera in a call sequence. *)
Fixpoint set_frame_calls (camera_id : string) (calls : list call) : Z :=
  match calls with
  | [] => 0
  | SetFrame id _ _ _ :: rest =>
      (if decide (id = camera_id) then 1 else 0) + set_frame_calls camera_id rest
  | SetConnectionStatus _ _ :: rest => set_frame_calls camera_id rest
  end.

(** ** The grayscale streamer: [CameraStreamer] of [source Grayscale .py]

    One object per camera holds the set of connected clients; web
    sockets are told apart by a number.  [handler] adds its socket to
    the set and removes it when the socket closes; [broadcast_frames]
    sends each captured frame to every client of the set. *)
Module CameraStreamer.

Record t := {
  cam_idx : Z;
  port : Z;
  width : Z;
  height : Z;
  quality : Z;
  clients : gset nat;
  running : bool
}.

(** [CameraStreamer(cam_idx, port, width=320, height=240, quality=50)] *)
Definition init (cam_idx port : Z) : t := {|
  cam_idx := cam_idx; port := port; width := 320; height := 240;
  quality := 50; clients := ∅; running := false
|}.

Definition with_clients (self : t) (clients' : gset nat) : t := {|
  cam_idx := cam_idx self; port := port self; width := width self;
  height := height self; quality := quality self; clients := clients';
  running := running self
|}.

(** [handler], up to its [await]: [self.clients.add(websocket)]. *)
Definition handler_enter (self : t) (websocket : nat) : t :=
  with_clients self ({[websocket]} ∪ clients self).

(** [handler], its [finally]: [self.clients.remove(websocket)], which
    raises [KeyError] when the socket is not in the set. *)
Definition handler_exit (self : t) (websocket : nat) : t * result unit :=
  if decide (websocket ∈ clients self)
  then (with_clients self (clients self ∖ {[websocket]}), Ok tt)
  else (self, Raise KeyError).

(** How long [broadcast_frames] sleeps at the end of a turn. *)
Inductive pause :=
| FrameTick     (* [asyncio.sleep(0.033)] *)
| CameraIdle.   (* [asyncio.sleep(0.1)] *)

Section Broadcast.

(** The image library, as [process_frame] calls it. *)
Variable ndarray : Type.
Variable resize : ndarray → Z → Z → result ndarray.
Variable cvtColor_gray : ndarray → result ndarray.
(** [cv2.imencode('.jpg', gray, [int(cv2.IMWRITE_JPEG_QUALITY), quality])] *)
Variable imencode : ndarray → Z → result (bool * bytes).
(** [base64.b64encode(buffer).decode('utf-8')] *)
Variable b64encode_str : bytes → string.

(** [process_frame]: resize, convert to gray, encode (the success flag
    of [imencode] is discarded), base64. *)
Definition process_frame (self : t) (frame : ndarray) : result string :=
  match resize frame (width self) (height self) with
  | Raise e => Raise e
  | Ok frame =>
      match cvtColor_gray frame with
      | Raise e => Raise e
      | Ok gray =>
          match imencode gray (quality self) with
          | Raise e => Raise e
          | Ok encoded => Ok (b64encode_str encoded.2)
          end
      end
  end.

(** What the [handler] of another connection does to [self.clients]
    while [broadcast_frames] awaits a send. *)
Inductive handler_step :=
| Enter (websocket : nat)   (* [handler] up to its [await] *)
| Exit (websocket : nat).   (* the [finally] clause of [handler] *)

Definition handler_run (self : t) (h : handler_step) : t :=
  match h with
  | Enter websocket => handler_enter self websocket
  | Exit websocket => (handler_exit self websocket).1
  end.

(** The [for ws in self.clients] loop.  The loop iterates the set
    itself, and [await ws.send(message)] lets the handlers of other
    connections run: [during ws] is the handler step, if one runs,
    while the send to [ws] is awaited (at most one per send).
    [si_used] is the size of the set when the iterator was made; every
    step of the iterator, the one that finds the set exhausted
    included, first compares the size of the set with it and raises
    [RuntimeError] if they differ.  [sockets] are the clients not yet
    visited.  Only [ConnectionClosed] is caught around the send.  The
    result carries the streamer as the handlers left it. *)
Fixpoint for_clients (send : nat → result unit)
    (during : nat → option handler_step) (si_used : nat)
    (sockets : list nat) (self : t) (websockets_to_remove : gset nat)
  : t * result (gset nat) :=
  if decide (size (clients self) = si_used) then
    match sockets with
    | [] => (self, Ok websockets_to_remove)
    | ws :: rest =>
        let self' := from_option (handler_run self) self (during ws) in
        match send ws with
        | Ok _ =>
            for_clients send during si_used rest self' websockets_to_remove
        | Raise ConnectionClosed =>
            for_clients send during si_used rest self'
              ({[ws]} ∪ websockets_to_remove)
        | Raise e => (self', Raise e)
        end
    end
  else (self, Raise RuntimeError).

(** The same loop when no handler runs during the sends: the sockets
    in the order they are visited, the outcome of [ws.send(message)]
    for each, and the set [websockets_to_remove] so far. *)
Fixpoint send_to_all (send : nat → result unit) (sockets : list nat)
    (websockets_to_remove : gset nat) : result (gset nat) :=
  match sockets with
  | [] => Ok websockets_to_remove
  | ws :: rest =>
      match send ws with
      | Ok _ => send_to_all send rest websockets_to_remove
      | Raise ConnectionClosed =>
          send_to_all send rest ({[ws]} ∪ websockets_to_remove)
      | Raise e => Raise e
      end
  end.

(** One turn of the [while self.running] loop of [broadcast_frames]:
    [cap_ready] is [self.cap and self.cap.isOpened()], [grabbed] is the
    frame [self.cap.read()] returned ([None] when [ret] is false).  The
    result is the streamer afterwards, and either the message sent (if
    any) with the pause taken, or the exception that leaves the
    coroutine.  No client connects or disconnects while the turn's
    sends are under way. *)
Definition broadcast_turn (self : t) (cap_ready : bool)
    (grabbed : option ndarray) (send : nat → result unit)
  : t * result (option (list (string * pyval)) * pause) :=
  if cap_ready then
    match grabbed with
    | Some frame =>
        match process_frame self frame with
        | Raise e => (self, Raise e)
        | Ok encoded_frame =>
            if decide (clients self = ∅) then (self, Ok (None, FrameTick))
            else
              let message := [ ("camera", PyInt (cam_idx self));
                               ("image", PyStr encoded_frame) ] in
              match send_to_all send (elements (clients self)) ∅ with
              | Raise e => (self, Raise e)
              | Ok websockets_to_remove =>
                  (with_clients self (clients self ∖ websockets_to_remove),
                   Ok (Some message, FrameTick))
              end
        end
    | None => (self, Ok (None, FrameTick))
    end
  else (self, Ok (None, CameraIdle)).

(** The same turn with the handlers of other connections running
    during the sends, as [during] tells.  An exception that leaves the
    loop skips [self.clients -= websockets_to_remove]. *)
Definition broadcast_turn_among (self : t) (cap_ready : bool)
    (grabbed : option ndarray) (send : nat → result unit)
    (during : nat → option handler_step)
  : t * result (option (list (string * pyval)) * pause) :=
  if cap_ready then
    match grabbed with
    | Some frame =>
        match process_frame self frame with
        | Raise e => (self, Raise e)
        | Ok encoded_frame =>
            if decide (clients self = ∅) then (self, Ok (None, FrameTick))
            else
              let message := [ ("camera", PyInt (cam_idx self));
                               ("image", PyStr encoded_frame) ] in
              match for_clients send during (size (clients self))
                      (elements (clients self)) self ∅ with
              | (self', Raise e) => (self', Raise e)
              | (self', Ok websockets_to_remove) =>
                  (with_clients self'
                     (clients self' ∖ websockets_to_remove),
                   Ok (Some message, FrameTick))
              end
        end
    | None => (self, Ok (None, FrameTick))
    end
  else (self, Ok (None, CameraIdle)).

End Broadcast.

End CameraStreamer.

(** Stand-ins for the streamer's image library, and a streamer with
    two clients of which the second has closed its connection. *)
Module StreamerDemo.
Definition ndarray : Type := bytes.
Definition resize (frame : ndarray) (width height : Z) : result ndarray :=
  Ok frame.
Definition cvtColor_gray (frame : ndarray) : result ndarray := Ok frame.
Definition imencode (frame : ndarray) (quality : Z) : result (bool * bytes) :=
  Ok (true, frame).
Definition b64encode_str (b : bytes) : string := bytes_decode b.

Definition two_clients : CameraStreamer.t :=
  CameraStreamer.handler_enter
    (CameraStreamer.handler_enter (CameraStreamer.init 0 8765) 1%nat) 2%nat.

Definition second_closed (ws : nat) : result unit :=
  if decide (ws = 2%nat) then Raise ConnectionClosed else Ok tt.

Definition second_broken (ws : nat) : result unit :=
  if decide (ws = 2%nat) then Raise OtherException else Ok tt.

Definition turn :=
  CameraStreamer.broadcast_turn ndarray resize cvtColor_gray imencode
    b64encode_str.

Definition nobody (ws : nat) : option CameraStreamer.handler_step := None.

(** A third client connects while the first is being sent to. *)
Definition third_connects (ws : nat) : option CameraStreamer.handler_step :=
  if decide (ws = 1%nat) then Some (CameraStreamer.Enter 3%nat) else None.
End StreamerDemo.

(** * Properties of the frame buffer *)

Section BufferFacts.
Implicit Types (self : CameraFrameBuffer) (id : string) (p : payload).

(** The comprehension binds exactly the configured identifiers. *)
Lemma dict_of_configs_lookup {V} (v : V) cfgs id :
  dict_of_configs v cfgs !! id
  = if decide (id ∈ camera_id <$> cfgs) then Some v else None.
Proof.
  unfold dict_of_configs.
  induction cfgs as [|cfg cfgs IH] using rev_ind.
  - simpl. by rewrite lookup_empty.
  - rewrite foldl_app, fmap_app. simpl.
    destruct (decide (camera_id cfg = id)) as [->|Hne].
    + rewrite lookup_insert_eq. clear IH.
      case_decide as Hin; [done|]. destruct Hin.
      apply elem_of_app. right. apply list_elem_of_singleton. done.
    + rewrite lookup_insert_ne by done. rewrite IH. clear IH.
      destruct (decide (id ∈ camera_id <$> cfgs)) as [Hin|Hin];
        case_decide as Hin'; try done.
      * destruct Hin'. apply elem_of_app. by left.
      * apply elem_of_app in Hin' as [Hin'|Hin']; [done|].
        apply list_elem_of_singleton in Hin'. congruence.
Qed.

(** [set_frame], spelled out by whether the counter exists. *)
Lemma set_frame_eq id p timestamp now self :
  set_frame id p timestamp now self =
  let written := {|
    frames := <[id := Some (payload_bytes p)]> (frames self);
    timestamps := <[id := Some (default now timestamp)]> (timestamps self);
    frame_counts := frame_counts self;
    connection_status := connection_status self |} in
  match frame_counts self !! id with
  | Some n =>
      ({| frames := frames written;
          timestamps := timestamps written;
          frame_counts := <[id := n + 1]> (frame_counts self);
          connection_status := connection_status self |}, Ok tt)
  | None => (written, Raise KeyError)
  end.
Proof.
  unfold set_frame, bind, store_frame, store_timestamp, bump_frame_count.
  simpl. by destruct (frame_counts self !! id).
Qed.

Lemma set_frame_frames id p timestamp now self :
  frames (set_frame id p timestamp now self).1
  = <[id := Some (payload_bytes p)]> (frames self).
Proof. rewrite set_frame_eq. simpl. by destruct (frame_counts self !! id). Qed.

Lemma set_frame_timestamps id p timestamp now self :
  timestamps (set_frame id p timestamp now self).1
  = <[id := Some (default now timestamp)]> (timestamps self).
Proof. rewrite set_frame_eq. simpl. by destruct (frame_counts self !! id). Qed.

Lemma set_frame_status id p timestamp now self :
  connection_status (set_frame id p timestamp now self).1
  = connection_status self.
Proof. rewrite set_frame_eq. simpl. by destruct (frame_counts self !! id). Qed.

Lemma set_frame_counts id p timestamp now self :
  frame_counts (set_frame id p timestamp now self).1
  = match frame_counts self !! id with
    | Some n => <[id := n + 1]> (frame_counts self)
    | None => frame_counts self
    end.
Proof. rewrite set_frame_eq. simpl. by destruct (frame_counts self !! id). Qed.

(** A counter is never created or removed by a call. *)
Lemma perform_counter_missing self c id :
  frame_counts (perform self c) !! id = None
  ↔ frame_counts self !! id = None.
Proof.
  destruct c as [id' p timestamp now | id' connected]; simpl; [|done].
  rewrite set_frame_counts.
  destruct (frame_counts self !! id') as [n|] eqn:Hn; [|done].
  destruct (decide (id' = id)) as [->|Hne].
  - rewrite lookup_insert_eq, Hn. split; discriminate.
  - by rewrite lookup_insert_ne.
Qed.

Lemma performs_counter_missing calls self id :
  frame_counts (foldl perform self calls) !! id = None
  ↔ frame_counts self !! id = None.
Proof.
  revert self. induction calls as [|c calls IH]; intros self; simpl; [done|].
  rewrite IH. apply perform_counter_missing.
Qed.

Lemma get_frame_perform self c id :
  get_frame (perform self c) id =
  match c with
  | SetFrame id' p _ _ =>
      if decide (id' = id) then Some (payload_bytes p) else get_frame self id
  | SetConnectionStatus _ _ => get_frame self id
  end.
Proof.
  unfold get_frame. destruct c as [id' p timestamp now | id' connected]; simpl; [|done].
  rewrite set_frame_frames. destruct (decide (id' = id)) as [->|Hne].
  - by rewrite lookup_insert_eq.
  - by rewrite lookup_insert_ne.
Qed.

Lemma get_frame_performs calls self id :
  get_frame (foldl perform self calls) id =
  match last_set_frame id calls with
  | Some p => Some (payload_bytes p)
  | None => get_frame self id
  end.
Proof.
  revert self. induction calls as [|c calls IH]; intros self; simpl; [done|].
  rewrite IH. destruct (last_set_frame id calls); [done|].
  rewrite get_frame_perform. destruct c; [|done]. by case_decide.
Qed.

(** Nothing is stored in the buffer [__init__] builds. *)
Lemma get_frame_initial id : get_frame frame_buffer id = None.
Proof.
  unfold get_frame, frame_buffer, init_buffer. simpl.
  rewrite dict_of_configs_lookup. by case_decide.
Qed.

End BufferFacts.

(** C6. For every camera, [get_frame] returns the payload of the most
    recent [set_frame] call for that camera, whatever other calls were
    made before, between or after: the very bytes for a [bytes]
    payload, and for a [str] payload its encoding, from which decoding
    gives the text back.  When no [set_frame] call for that camera has
    been made yet, [get_frame] returns the absent marker [None]. *)
Theorem C6_get_frame_latest_wins (calls : list call) (id : string) :
  get_frame (foldl perform frame_buffer calls) id
  = match last_set_frame id calls with
    | Some (Str s) => Some (str_encode s)
    | Some (Bytes b) => Some b
    | None => None
    end
  ∧ ∀ s, last_set_frame id calls = Some (Str s) →
         bytes_decode <$> get_frame (foldl perform frame_buffer calls) id
         = Some s.
Proof.
  assert (Hget : get_frame (foldl perform frame_buffer calls) id
                 = match last_set_frame id calls with
                   | Some (Str s) => Some (str_encode s)
                   | Some (Bytes b) => Some b
                   | None => None
                   end).
  { rewrite get_frame_performs, get_frame_initial.
    by destruct (last_set_frame id calls) as [[s|b]|]. }
  split; [exact Hget|].
  intros s Hlast. rewrite Hget, Hlast. simpl. f_equal.
  apply String.string_of_list_byte_of_string.
Qed.

(** C9. For distinct cameras [a] and [b], a [set_frame] call or a
    [set_connection_status] call for [a] leaves the stored frame, the
    timestamp, the frame counter and the connection status of [b] as
    they were. *)
Theorem C9_cameras_disjoint (a b : string) (self : CameraFrameBuffer)
    (p : payload) (timestamp : option datetime) (now : datetime)
    (connected : bool) :
  a ≠ b →
  let after_frame := (set_frame a p timestamp now self).1 in
  let after_status := (set_connection_status a connected self).1 in
  (frames after_frame !! b = frames self !! b
   ∧ timestamps after_frame !! b = timestamps self !! b
   ∧ frame_counts after_frame !! b = frame_counts self !! b
   ∧ connection_status after_frame !! b = connection_status self !! b)
  ∧ (frames after_status !! b = frames self !! b
     ∧ timestamps after_status !! b = timestamps self !! b
     ∧ frame_counts after_status !! b = frame_counts self !! b
     ∧ connection_status after_status !! b = connection_status self !! b).
Proof.
  intros Hne. simpl. split.
  - rewrite set_frame_frames, set_frame_timestamps, set_frame_counts,
      set_frame_status.
    rewrite !lookup_insert_ne by done.
    repeat split.
    destruct (frame_counts self !! a); [by rewrite lookup_insert_ne|done].
  - repeat split. by rewrite lookup_insert_ne.
Qed.

Lemma C9_cameras_disjoint_witness :
  "front_view" ≠ "rear_view"
  ∧ frame_counts
      (set_frame "front_view" (Str "abc") None 7 frame_buffer).1 !! "rear_view"
    = frame_counts frame_buffer !! "rear_view".
Proof.
  split; [discriminate|].
  apply (C9_cameras_disjoint "front_view" "rear_view" frame_buffer
           (Str "abc") None 7 true).
  discriminate.
Defined.

(** C10. For a camera identifier that is not configured, on every
    buffer reached from the initial one by any calls: as long as no
    [set_frame] call was made for that identifier, [get_frame] returns
    the absent marker; and [set_frame] for that identifier raises
    [KeyError], yet the buffer it leaves holds the call's payload (the
    very bytes, or the encoding of the text, which decodes back to it)
    and timestamp for that identifier, so that [get_frame] now returns
    the payload, and it still has no frame counter for it. *)
Theorem C10_set_frame_unconfigured (id : string) (calls : list call)
    (p : payload) (timestamp : option datetime) (now : datetime) :
  id ∉ configured_ids →
  let self := foldl perform frame_buffer calls in
  let outcome := set_frame id p timestamp now self in
  let written := match p with
                 | Str s => str_encode s
                 | Bytes b => b
                 end in
  (last_set_frame id calls = None → get_frame self id = None)
  ∧ outcome.2 = Raise KeyError
  ∧ frames outcome.1 !! id = Some (Some written)
  ∧ timestamps outcome.1 !! id = Some (Some (default now timestamp))
  ∧ get_frame outcome.1 id = Some written
  ∧ frame_counts outcome.1 !! id = None
  ∧ (∀ s, p = Str s → bytes_decode written = s).
Proof.
  intros Hid self outcome written.
  assert (Hmissing : frame_counts self !! id = None).
  { apply performs_counter_missing. simpl.
    rewrite dict_of_configs_lookup. by rewrite decide_False. }
  assert (Hwritten : payload_bytes p = written) by (by destruct p).
  split.
  { intros Hlast. unfold self.
    by rewrite get_frame_performs, Hlast, get_frame_initial. }
  unfold outcome, get_frame. rewrite set_frame_eq, Hmissing. simpl.
  rewrite !lookup_insert_eq, Hwritten. simpl.
  do 5 (split; [done|]). intros s Hp. unfold written. rewrite Hp.
  apply String.string_of_list_byte_of_string.
Qed.

Lemma C10_set_frame_unconfigured_witness :
  ("side_view" ∉ configured_ids)
  ∧ (set_frame "side_view" (Str "abc") None 7 frame_buffer).2 = Raise KeyError.
Proof.
  assert (H : "side_view" ∉ configured_ids).
  { apply (bool_decide_unpack _). vm_compute. reflexivity. }
  split; [exact H|].
  exact (proj1 (proj2 (C10_set_frame_unconfigured "side_view" []
                         (Str "abc") None 7 H))).
Defined.

(** * Properties of the ingest connector *)

Section IngestFacts.
Context (ndarray : Type)
  (b64decode_str : string → option bytes)
  (imdecode : bytes → result (option ndarray))
  (imencode : ndarray → result (bool * bytes))
  (b64encode_str : bytes → string).

Local Abbreviation parse_message' := (parse_message b64decode_str).
Local Abbreviation re_encoded' :=
  (re_encoded ndarray b64decode_str imdecode imencode b64encode_str).
Local Abbreviation stream_iteration' :=
  (stream_iteration ndarray b64decode_str imdecode imencode b64encode_str).
Local Abbreviation step' :=
  (step ndarray b64decode_str imdecode imencode b64encode_str).
Local Abbreviation advance' :=
  (advance ndarray b64decode_str imdecode imencode b64encode_str).
Local Abbreviation run' :=
  (run ndarray b64decode_str imdecode imencode b64encode_str).

Implicit Types (self : CameraFrameBuffer) (config : CameraConfig)
  (d : data) (w : world) (e : exn).

(** A message that re-encodes is handed to [set_frame]. *)
Lemma stream_iteration_accept config now d s self :
  re_encoded' d = Some s →
  stream_iteration' config now (Ok d) self
  = ((set_frame (camera_id config) (Str s) None now self).1, Ok Continue).
Proof.
  unfold re_encoded, stream_iteration, process_frame.
  destruct (parse_message' d) as [jpg|e]; [|done].
  unfold bind, try_except, lift, ret, read_frame_count.
  destruct (imdecode jpg) as [[frame|]|e]; [|done..].
  destruct (imencode frame) as [[[] buffer]|e]; [|done..].
  intros [= <-]. simpl.
  rewrite set_frame_eq. simpl.
  destruct (frame_counts self !! camera_id config) as [n|] eqn:Hn; simpl.
  - by rewrite lookup_insert_eq.
  - done.
Qed.

(** Any other message leaves the buffer alone. *)
Lemma stream_iteration_reject config now d self :
  re_encoded' d = None →
  (stream_iteration' config now (Ok d) self).1 = self.
Proof.
  unfold re_encoded, stream_iteration, process_frame.
  destruct (parse_message' d) as [jpg|e].
  - unfold bind, try_except, lift, ret.
    destruct (imdecode jpg) as [[frame|]|e]; [|done..].
    destruct (imencode frame) as [[[] buffer]|e]; done.
  - by destruct (invalid_message_format e).
Qed.

Lemma stream_iteration_raise config now e self :
  stream_iteration' config now (Raise e) self = (self, Ok Break).
Proof. by destruct e. Qed.

(** [stream_iteration] itself never raises. *)
Lemma stream_iteration_total config now r self :
  ∃ control, (stream_iteration' config now r self).2 = Ok control.
Proof.
  destruct r as [d|e]; [|rewrite stream_iteration_raise; eauto].
  destruct (re_encoded' d) as [s|] eqn:Hd.
  - erewrite stream_iteration_accept by done. eauto.
  - revert Hd. unfold re_encoded, stream_iteration, process_frame.
    destruct (parse_message' d) as [jpg|e].
    + unfold bind, try_except, lift, ret.
      destruct (imdecode jpg) as [[frame|]|e]; [|eauto..].
      destruct (imencode frame) as [[[] buffer]|e]; [done|eauto..].
    + destruct (invalid_message_format e); eauto.
Qed.

(** *** One resumption *)

Lemma step_streaming config max_retries t now r self :
  phase_of t = Streaming →
  step' config max_retries t (Received now r) self
  = match stream_iteration' config now r self with
    | (self', Ok Continue) => (self', Ok (t, []))
    | (self', Ok Break) =>
        (self', Ok ({| phase_of := Connecting; retry_count := retry_count t |},
                    [Close; Connect]))
    | (self', Raise e) => (self', Raise e)
    end.
Proof.
  intros Hphase. unfold step, bind. rewrite Hphase.
  destruct (stream_iteration' config now r self) as [self' [[]|e]]; done.
Qed.

(** The buffer after a resumption, phase by phase. *)
Lemma step_buffer config max_retries t ev self :
  (step' config max_retries t ev self).1 =
  match phase_of t, ev with
  | Connecting, Connected (Ok _) =>
      (set_connection_status (camera_id config) true self).1
  | Connecting, Connected (Raise _) =>
      (set_connection_status (camera_id config) false self).1
  | Streaming, Received now r => (stream_iteration' config now r self).1
  | _, _ => self
  end.
Proof.
  destruct (phase_of t) eqn:Hphase, ev as [[[]|e]|now r];
    try (unfold step; rewrite Hphase; done).
  - unfold step. rewrite Hphase. unfold bind. simpl.
    destruct (connection_lost e); [|done].
    by destruct (max_retries <? retry_count t + 1)%Z.
  - rewrite step_streaming by done.
    destruct (stream_iteration' config now r self) as [self' [[]|e]]; done.
Qed.

(** A resumption always hands control back: nothing escapes the
    coroutine's handlers. *)
Lemma step_total config max_retries t ev self :
  ∃ t' effects, (step' config max_retries t ev self).2 = Ok (t', effects).
Proof.
  destruct (phase_of t) eqn:Hphase, ev as [[[]|e]|now r];
    try (unfold step; rewrite Hphase; simpl; eauto; fail).
  - unfold step. rewrite Hphase. unfold bind. simpl.
    destruct (connection_lost e); [|eauto].
    destruct (max_retries <? retry_count t + 1)%Z; eauto.
  - rewrite step_streaming by done.
    destruct (stream_iteration_total config now r self) as [control Hc].
    destruct (stream_iteration' config now r self) as [self' [[]|e]];
      simpl in *; eauto. discriminate.
Qed.

(** *** Consecutive refused connections *)

(** What refusals and closed connections in a row add to the log,
    starting after retry number [r]. *)
Lemma run_refused config max_retries (failures : list exn) w :
  Forall (λ e, connection_lost e = true) failures →
  phase_of (task w) = Connecting →
  retry_count (task w) + Z.of_nat (length failures) ≤ max_retries →
  let w' := run' config max_retries w
              ((λ e, Connected (Raise e)) <$> failures) in
  phase_of (task w') = Connecting
  ∧ retry_count (task w')
    = retry_count (task w) + Z.of_nat (length failures)
  ∧ sleeps (log w')
    = sleeps (log w)
      ++ (backoff_wait
            <$> seqZ (retry_count (task w) + 1) (Z.of_nat (length failures)))
  ∧ attempts (log w') = (attempts (log w) + length failures)%nat.
Proof.
  intros Hall. revert w.
  induction Hall as [|e failures He Hall IH]; intros w Hphase Hle.
  { simpl. rewrite Z.add_0_r, app_nil_r. by rewrite Nat.add_0_r. }
  cbv zeta. rewrite fmap_cons. cbn [run foldl length].
  set (w1 := advance' config max_retries w (Connected (Raise e))).
  assert (Hw1 : task w1 = {| phase_of := Connecting;
                             retry_count := retry_count (task w) + 1 |}
                ∧ log w1 = log w ++ [Sleep (backoff_wait (retry_count (task w) + 1));
                                     Connect]).
  { unfold w1, advance, step, bind. rewrite Hphase, He. simpl.
    simpl in Hle.
    destruct (Z.ltb_spec max_retries (retry_count (task w) + 1)); [lia|done]. }
  destruct Hw1 as [Htask Hlog].
  destruct (IH w1) as (IH1 & IH2 & IH3 & IH4).
  { by rewrite Htask. }
  { rewrite Htask. simpl in *. lia. }
  unfold run in IH1, IH2, IH3, IH4.
  rewrite IH1, IH2, IH3, IH4, Htask, Hlog. cbn [retry_count].
  split; [done|]. split; [lia|]. split.
  - unfold sleeps. rewrite omap_app. simpl omap. rewrite <- app_assoc.
    f_equal. rewrite (seqZ_cons _ (Z.of_nat (S (length failures)))) by lia.
    simpl. do 2 f_equal. f_equal; lia.
  - unfold attempts. rewrite filter_app, length_app. simpl. lia.
Qed.

(** Once the receiver has returned, nothing resumes it. *)
Lemma advance_returned config max_retries w ev :
  phase_of (task w) = Returned → advance' config max_retries w ev = w.
Proof.
  intros Hphase. unfold advance, step. rewrite Hphase. simpl.
  destruct w as [self t effects], ev; simpl; by rewrite app_nil_r.
Qed.

Lemma run_returned config max_retries w evs :
  phase_of (task w) = Returned → run' config max_retries w evs = w.
Proof.
  intros Hphase. induction evs as [|ev evs IH]; simpl; [done|].
  by rewrite advance_returned.
Qed.

(** The refusal that exhausts the budget: no wait, no new attempt. *)
Lemma advance_give_up config max_retries e w :
  connection_lost e = true →
  phase_of (task w) = Connecting →
  max_retries < retry_count (task w) + 1 →
  let w' := advance' config max_retries w (Connected (Raise e)) in
  phase_of (task w') = Returned ∧ log w' = log w.
Proof.
  intros He Hphase Hlt. unfold advance, step, bind. rewrite Hphase, He. simpl.
  destruct (Z.ltb_spec max_retries (retry_count (task w) + 1)); [|lia].
  simpl. by rewrite app_nil_r.
Qed.

(** *** Messages while streaming *)

Lemma advance_accept config max_retries w now d s :
  phase_of (task w) = Streaming →
  re_encoded' d = Some s →
  advance' config max_retries w (Received now (Ok d))
  = {| buffer := (set_frame (camera_id config) (Str s) None now (buffer w)).1;
       task := task w;
       log := log w |}.
Proof.
  intros Hphase Hd. unfold advance. rewrite step_streaming by done.
  rewrite (stream_iteration_accept _ _ _ s) by done. by rewrite app_nil_r.
Qed.

(** The messages line 118 catches are dropped where they are. *)
Lemma advance_invalid_format config max_retries w now d e :
  phase_of (task w) = Streaming →
  parse_message' d = Raise e →
  invalid_message_format e = true →
  advance' config max_retries w (Received now (Ok d)) = w.
Proof.
  intros Hphase Hd He. unfold advance. rewrite step_streaming by done.
  unfold stream_iteration. rewrite Hd, He. simpl.
  destruct w; simpl. by rewrite app_nil_r.
Qed.

(** A message that parses but does not re-encode is dropped as well. *)
Lemma advance_undecodable config max_retries w now d jpg_bytes :
  phase_of (task w) = Streaming →
  parse_message' d = Ok jpg_bytes →
  re_encoded' d = None →
  advance' config max_retries w (Received now (Ok d)) = w.
Proof.
  intros Hphase Hd Hnone. unfold advance. rewrite step_streaming by done.
  pose proof (stream_iteration_reject config now d (buffer w) Hnone) as Hbuf.
  revert Hbuf. unfold stream_iteration. rewrite Hd. unfold bind.
  destruct (try_except _ _ _) as [self' [[]|e]]; simpl; intros ->;
    destruct w; simpl; by rewrite ?app_nil_r.
Qed.

(** Whatever else line 117 raises reaches the handler of line 146: the
    inner loop is left, the socket is closed and the receiver goes
    straight back to connecting. *)
Lemma advance_unhandled config max_retries w now d e :
  phase_of (task w) = Streaming →
  parse_message' d = Raise e →
  invalid_message_format e = false →
  advance' config max_retries w (Received now (Ok d))
  = {| buffer := buffer w;
       task := {| phase_of := Connecting; retry_count := retry_count (task w) |};
       log := log w ++ [Close; Connect] |}.
Proof.
  intros Hphase Hd He. unfold advance. rewrite step_streaming by done.
  unfold stream_iteration. by rewrite Hd, He.
Qed.

(** Text that [base64.b64decode] rejects is one such case. *)
Lemma advance_bad_base64 config max_retries w now s :
  phase_of (task w) = Streaming →
  b64decode_str s = None →
  advance' config max_retries w
    (Received now (Ok (Json (PyDict [("image", PyStr s)]))))
  = {| buffer := buffer w;
       task := {| phase_of := Connecting; retry_count := retry_count (task w) |};
       log := log w ++ [Close; Connect] |}.
Proof.
  intros Hphase Hs.
  apply (advance_unhandled _ _ _ _ _ BinasciiError); [done| |done].
  unfold parse_message. simpl. by rewrite Hs.
Qed.

(** A failed [recv] (timeout, closed connection, anything else) does
    the same. *)
Lemma advance_recv_raises config max_retries w now e :
  phase_of (task w) = Streaming →
  advance' config max_retries w (Received now (Raise e))
  = {| buffer := buffer w;
       task := {| phase_of := Connecting; retry_count := retry_count (task w) |};
       log := log w ++ [Close; Connect] |}.
Proof.
  intros Hphase. unfold advance. rewrite step_streaming by done.
  by rewrite stream_iteration_raise.
Qed.

Lemma advance_connected config max_retries w :
  phase_of (task w) = Connecting →
  advance' config max_retries w (Connected (Ok tt))
  = {| buffer := (set_connection_status (camera_id config) true (buffer w)).1;
       task := {| phase_of := Streaming; retry_count := 0 |};
       log := log w |}.
Proof.
  intros Hphase. unfold advance, step, bind. rewrite Hphase. simpl.
  by rewrite app_nil_r.
Qed.

(** A connection attempt that fails in any other way: the camera is
    marked disconnected, the receiver sleeps 5 and tries again, and the
    retry count stays as it is. *)
Lemma advance_connect_error config max_retries w e :
  phase_of (task w) = Connecting →
  connection_lost e = false →
  advance' config max_retries w (Connected (Raise e))
  = {| buffer := (set_connection_status (camera_id config) false (buffer w)).1;
       task := {| phase_of := Connecting; retry_count := retry_count (task w) |};
       log := log w ++ [Sleep 5; Connect] |}.
Proof.
  intros Hphase He. unfold advance, step, bind. by rewrite Hphase, He.
Qed.

(** A configured camera has its counter, at 0, in the initial buffer. *)
Lemma configured_counter config :
  config ∈ CAMERA_CONFIGS →
  frame_counts frame_buffer !! camera_id config = Some 0.
Proof.
  intros Hin. simpl. rewrite dict_of_configs_lookup.
  rewrite decide_True; [done|]. by apply list_elem_of_fmap_2.
Qed.

Lemma set_frame_count_known id p timestamp now self n :
  frame_counts self !! id = Some n →
  frame_counts (set_frame id p timestamp now self).1 !! id = Some (n + 1).
Proof.
  intros Hn. rewrite set_frame_counts, Hn. apply lookup_insert_eq.
Qed.

(** *** The claims about the receiver *)

(** C1 (the code at the failing input). A camera connects and the
    pending [recv] then raises: [TimeoutError], [ConnectionClosed] or
    anything else.  The receiver leaves the stream, closes the socket
    and starts the next connection attempt, and the connection status
    of the camera is still [True] at that point: it was not set to
    [False] before the new attempt. *)
Theorem C1_stream_end_keeps_status config max_retries self now e :
  let w := run' config max_retries (start self)
             [Connected (Ok tt); Received now (Raise e)] in
  phase_of (task w) = Connecting
  ∧ log w = [Connect; Close; Connect]
  ∧ get_connection_status (buffer w) (camera_id config) = true.
Proof.
  simpl. rewrite advance_connected by done.
  rewrite advance_recv_raises by done. simpl.
  repeat split. unfold get_connection_status. simpl.
  by rewrite lookup_insert_eq.
Qed.


(** C3 (the code at the failing input). A configured camera connects,
    three messages arrive that each parse, decode and re-encode, and the
    next [recv] raises [ConnectionClosed].  Afterwards the frame counter
    is 3 and the last frame is stored, but the connection status is
    still [True], the retry count is 0, and the receiver has already
    started the next connection attempt without any wait: the log holds
    no [Sleep]. *)
Theorem C3_three_frames_then_close config d1 d2 d3 s1 s2 s3 t1 t2 t3 t4 :
  config ∈ CAMERA_CONFIGS →
  re_encoded' d1 = Some s1 →
  re_encoded' d2 = Some s2 →
  re_encoded' d3 = Some s3 →
  let w := run' config 5 (start frame_buffer)
             [Connected (Ok tt); Received t1 (Ok d1); Received t2 (Ok d2);
              Received t3 (Ok d3); Received t4 (Raise ConnectionClosed)] in
  frame_counts (buffer w) !! camera_id config = Some 3
  ∧ get_frame (buffer w) (camera_id config) = Some (str_encode s3)
  ∧ get_connection_status (buffer w) (camera_id config) = true
  ∧ task w = {| phase_of := Connecting; retry_count := 0 |}
  ∧ log w = [Connect; Close; Connect]
  ∧ sleeps (log w) = [].
Proof.
  intros Hin H1 H2 H3. cbn [run foldl].
  rewrite advance_connected by done.
  rewrite (advance_accept _ _ _ _ d1 s1) by done. cbn [buffer task log].
  rewrite (advance_accept _ _ _ _ d2 s2) by done. cbn [buffer task log].
  rewrite (advance_accept _ _ _ _ d3 s3) by done. cbn [buffer task log].
  rewrite advance_recv_raises by done. cbn [buffer task log start app].
  repeat split.
  - pose proof (configured_counter config Hin) as H0.
    eapply (set_frame_count_known _ _ _ _ _ 2).
    eapply (set_frame_count_known _ _ _ _ _ 1).
    eapply (set_frame_count_known _ _ _ _ _ 0).
    done.
  - unfold get_frame. rewrite set_frame_frames. by rewrite lookup_insert_eq.
  - unfold get_connection_status. rewrite !set_frame_status. simpl.
    by rewrite lookup_insert_eq.
Qed.

(** C4 (the code at the failing input). While streaming, a message that
    is the JSON array [[]] (no [image] field: subscripting raises
    [TypeError]), a message [{"image": 5}] (the payload is not text:
    [b64decode] raises [TypeError]) or a binary message on which
    json.loads raises [UnicodeDecodeError] (the byte 0xff) is not dropped in
    place: the receiver leaves the stream, closes the socket and
    reconnects.  The buffer, and so the frame counter, is unchanged. *)
Theorem C4_uncaught_malformed_closes config max_retries self now :
  let after d := run' config max_retries (start self)
                   [Connected (Ok tt); Received now (Ok d)] in
  let closed d :=
    phase_of (task (after d)) = Connecting
    ∧ log (after d) = [Connect; Close; Connect]
    ∧ frame_counts (buffer (after d)) = frame_counts self in
  closed (Json (PyList []))
  ∧ closed (Json (PyDict [("image", PyInt 5)]))
  ∧ closed NotUtf8.
Proof.
  cbn [run foldl]. rewrite advance_connected by done.
  repeat split;
    by rewrite (advance_unhandled _ _ _ _ _ TypeError)
    || by rewrite (advance_unhandled _ _ _ _ _ UnicodeDecodeError).
Qed.

(** *** The frame counter along a schedule of all receivers *)

Local Abbreviation resume' :=
  (resume ndarray b64decode_str imdecode imencode b64encode_str).
Local Abbreviation main' :=
  (main ndarray b64decode_str imdecode imencode b64encode_str).
Local Abbreviation accepts' :=
  (accepts ndarray b64decode_str imdecode imencode b64encode_str).
Local Abbreviation accepted_frames' :=
  (accepted_frames ndarray b64decode_str imdecode imencode b64encode_str).

(** No two configured cameras share an identifier. *)
Lemma configured_ids_distinct i j config config' :
  CAMERA_CONFIGS !! i = Some config →
  CAMERA_CONFIGS !! j = Some config' →
  camera_id config = camera_id config' →
  i = j.
Proof.
  intros Hi Hj Heq.
  assert (Hnodup : NoDup configured_ids).
  { apply (bool_decide_unpack _). vm_compute. reflexivity. }
  eapply (NoDup_lookup _ _ _ _ Hnodup).
  - unfold configured_ids. rewrite list_lookup_fmap, Hi. reflexivity.
  - unfold configured_ids. rewrite list_lookup_fmap, Hj. simpl. by rewrite Heq.
Qed.

(** A resumption of one camera's receiver leaves the other cameras'
    counters alone. *)
Lemma step_other_counter config max_retries t ev self id :
  id ≠ camera_id config →
  frame_counts (step' config max_retries t ev self).1 !! id
  = frame_counts self !! id.
Proof.
  intros Hne. rewrite step_buffer.
  destruct (phase_of t), ev as [[[]|e]|now [d|e]]; try done.
  - destruct (re_encoded' d) as [s|] eqn:Hd.
    + rewrite (stream_iteration_accept _ _ _ s) by done. simpl.
      rewrite set_frame_counts.
      destruct (frame_counts self !! camera_id config); [|done].
      by rewrite lookup_insert_ne.
    + by rewrite stream_iteration_reject.
  - by rewrite stream_iteration_raise.
Qed.

(** Its own counter goes up by one exactly when it is streaming and
    the message re-encodes. *)
Lemma step_own_counter config max_retries t ev self n :
  frame_counts self !! camera_id config = Some n →
  frame_counts (step' config max_retries t ev self).1 !! camera_id config
  = Some (n + match ev with
              | Received _ (Ok d) =>
                  if bool_decide (phase_of t = Streaming)
                     && bool_decide (is_Some (re_encoded' d))
                  then 1 else 0
              | _ => 0
              end).
Proof.
  intros Hn. rewrite step_buffer.
  destruct (phase_of t), ev as [[[]|e]|now [d|e]];
    try (simpl; rewrite ?Z.add_0_r; done).
  - destruct (re_encoded' d) as [s|] eqn:Hd.
    + rewrite (stream_iteration_accept _ _ _ s) by done.
      rewrite bool_decide_true by done.
      rewrite bool_decide_true by eauto. simpl.
      by apply set_frame_count_known.
    + rewrite stream_iteration_reject by done.
      rewrite (bool_decide_false (is_Some _)) by (by intros [? ?]).
      rewrite andb_false_r. by rewrite Z.add_0_r.
  - rewrite stream_iteration_raise. by rewrite Z.add_0_r.
Qed.

Lemma resume_counter i config sys turn n :
  CAMERA_CONFIGS !! i = Some config →
  frame_counts (shared sys) !! camera_id config = Some n →
  frame_counts (shared (resume' sys turn)) !! camera_id config
  = Some (n + if accepts' sys i turn then 1 else 0).
Proof.
  intros Hi Hn. destruct turn as [j ev]. unfold resume, accepts. simpl.
  destruct (decide (j = i)) as [->|Hji].
  - rewrite bool_decide_true by done. rewrite Hi. simpl.
    destruct (receiver_tasks sys !! i) as [t|]; [|by rewrite Z.add_0_r].
    pose proof (step_own_counter config 5 t ev (shared sys) n Hn) as Hstep.
    destruct (step' config 5 t ev (shared sys)) as [self' [[t' effects]|e]];
      simpl in *; rewrite Hstep; by destruct ev as [|now [d|e']].
  - rewrite bool_decide_false by done. simpl. rewrite Z.add_0_r.
    destruct (CAMERA_CONFIGS !! j) as [config'|] eqn:Hj; [|done].
    destruct (receiver_tasks sys !! j) as [t|]; [|done].
    assert (Hne : camera_id config ≠ camera_id config').
    { intros Heq. apply Hji. symmetry.
      by eapply configured_ids_distinct. }
    pose proof (step_other_counter config' 5 t ev (shared sys) _ Hne) as Hstep.
    destruct (step' config' 5 t ev (shared sys)) as [self' [[t' effects]|e]];
      simpl in *; by rewrite Hstep.
Qed.

Lemma resumes_counter i config schedule sys n :
  CAMERA_CONFIGS !! i = Some config →
  frame_counts (shared sys) !! camera_id config = Some n →
  frame_counts (shared (foldl resume' sys schedule)) !! camera_id config
  = Some (n + accepted_frames' i sys schedule).
Proof.
  intros Hi. revert sys n.
  induction schedule as [|turn schedule IH]; intros sys n Hn; simpl.
  - by rewrite Z.add_0_r.
  - rewrite (IH _ (n + if accepts' sys i turn then 1 else 0)).
    + f_equal. lia.
    + by apply resume_counter.
Qed.

(** C5. For every configured camera, along any interleaving of all the
    receivers: a [set_frame] call on a camera that has a counter
    succeeds and raises the counter by exactly 1; the counter equals
    the number of frames accepted for that camera so far (messages
    received while streaming that parse, decode and re-encode); and
    each further resumption raises it by 1 if it delivers such a frame
    to this camera and leaves it unchanged otherwise, so the counter
    never decreases and strictly increases at every accepted frame. *)
Theorem C5_frame_counter_counts_accepted (i : nat) (config : CameraConfig)
    (schedule : list (nat * event)) :
  CAMERA_CONFIGS !! i = Some config →
  (∀ self p timestamp now n,
     frame_counts self !! camera_id config = Some n →
     (set_frame (camera_id config) p timestamp now self).2 = Ok tt
     ∧ frame_counts (set_frame (camera_id config) p timestamp now self).1
         !! camera_id config = Some (n + 1))
  ∧ frame_counts (shared (main' schedule)) !! camera_id config
    = Some (accepted_frames' i main_start schedule)
  ∧ (∀ turn,
       get_frame_count (shared (main' (schedule ++ [turn]))) (camera_id config)
       = get_frame_count (shared (main' schedule)) (camera_id config)
         + if accepts' (main' schedule) i turn then 1 else 0).
Proof.
  intros Hi.
  assert (Hin : config ∈ CAMERA_CONFIGS) by (by eapply list_elem_of_lookup_2).
  assert (Hmain : ∀ sched,
    frame_counts (shared (main' sched)) !! camera_id config
    = Some (accepted_frames' i main_start sched)).
  { intros sched. unfold main.
    rewrite (resumes_counter i config sched main_start 0 Hi).
    - f_equal; lia.
    - by apply configured_counter. }
  split; [|split].
  - intros self p timestamp now n Hn. split.
    + by rewrite set_frame_eq, Hn.
    + by apply set_frame_count_known.
  - apply Hmain.
  - intros turn. unfold get_frame_count.
    unfold main at 1. rewrite foldl_app. simpl.
    fold (main' schedule).
    rewrite (resume_counter i config _ turn _ Hi (Hmain schedule)).
    by rewrite Hmain.
Qed.

End IngestFacts.



(** A run that meets the hypotheses of C3. *)
Lemma C3_three_frames_then_close_witness :
  Demo.front_view ∈ CAMERA_CONFIGS
  ∧ re_encoded Demo.ndarray Demo.b64decode_str Demo.imdecode Demo.imencode
      Demo.b64encode_str (Demo.image_message "aa") = Some "aa"
  ∧ frame_counts
      (buffer (Demo.receive Demo.front_view
                 [Connected (Ok tt);
                  Received 1 (Ok (Demo.image_message "aa"));
                  Received 2 (Ok (Demo.image_message "bb"));
                  Received 3 (Ok (Demo.image_message "cc"));
                  Received 4 (Raise ConnectionClosed)]))
      !! camera_id Demo.front_view = Some 3.
Proof.
  assert (Hin : Demo.front_view ∈ CAMERA_CONFIGS) by apply list_elem_of_here.
  split; [exact Hin|]. split; [reflexivity|].
  exact (proj1 (C3_three_frames_then_close Demo.ndarray Demo.b64decode_str
                  Demo.imdecode Demo.imencode Demo.b64encode_str
                  Demo.front_view
                  (Demo.image_message "aa") (Demo.image_message "bb")
                  (Demo.image_message "cc") "aa" "bb" "cc" 1 2 3 4
                  Hin eq_refl eq_refl eq_refl)).
Defined.

(** A schedule that meets the hypothesis of C5: the first camera
    connects and receives one frame while the second is refused. *)
Lemma C5_frame_counter_counts_accepted_witness :
  CAMERA_CONFIGS !! 0%nat = Some Demo.front_view
  ∧ frame_counts
      (shared (main Demo.ndarray Demo.b64decode_str Demo.imdecode
                 Demo.imencode Demo.b64encode_str
                 [(0%nat, Connected (Ok tt));
                  (1%nat, Connected (Raise ConnectionRefusedError));
                  (0%nat, Received 1 (Ok (Demo.image_message "aa")))]))
      !! camera_id Demo.front_view
    = Some (accepted_frames Demo.ndarray Demo.b64decode_str Demo.imdecode
              Demo.imencode Demo.b64encode_str 0 main_start
              [(0%nat, Connected (Ok tt));
               (1%nat, Connected (Raise ConnectionRefusedError));
               (0%nat, Received 1 (Ok (Demo.image_message "aa")))]).
Proof.
  split; [reflexivity|].
  exact (proj1 (proj2 (C5_frame_counter_counts_accepted Demo.ndarray
                         Demo.b64decode_str Demo.imdecode Demo.imencode
                         Demo.b64encode_str 0 Demo.front_view _ eq_refl))).
Defined.

(** * Properties of the broadcast handler *)

Section BroadcastFacts.
Context (isoformat : datetime → string).

Local Abbreviation response' := (response isoformat).
Local Abbreviation broadcast_camera_feed' := (broadcast_camera_feed isoformat).

Lemma bytes_decode_encode s : bytes_decode (str_encode s) = s.
Proof. apply String.string_of_list_byte_of_string. Qed.

(** While nothing is stored, a tick builds the placeholder. *)
Lemma response_absent config self now :
  get_frame self (camera_id config) = None →
  response' config self now
  = [ ("camera_id", PyStr (camera_id config));
      ("camera_name", PyStr (name config));
      ("timestamp", PyStr (isoformat now));
      ("image", PyNone);
      ("is_grayscale", PyBool false);
      ("source_connected",
       PyBool (get_connection_status self (camera_id config)));
      ("message", PyStr "Waiting for first frame...") ].
Proof. intros Hnone. unfold response. by rewrite Hnone. Qed.

(** Once bytes that are not empty are stored, a tick carries them. *)
Lemma response_present config self now b :
  get_frame self (camera_id config) = Some b →
  b ≠ [] →
  response' config self now
  = [ ("camera_id", PyStr (camera_id config));
      ("camera_name", PyStr (name config));
      ("timestamp", PyStr (isoformat now));
      ("image", PyStr (bytes_decode b));
      ("is_grayscale", PyBool false);
      ("source_connected",
       PyBool (get_connection_status self (camera_id config))) ].
Proof.
  intros Hsome Hne. unfold response. rewrite Hsome.
  by destruct b.
Qed.

(** [if frame:] is false for an empty payload as well: a stored empty
    payload is answered like an absent one. *)
Lemma response_empty_payload config self now :
  get_frame self (camera_id config) = Some [] →
  dict_lookup "image" (response' config self now) = Some PyNone.
Proof. intros Hsome. unfold response. by rewrite Hsome. Qed.


End BroadcastFacts.


(** C8 as stated fails: the first message to a viewer of the front
    camera has a field [is_grayscale], which the documented shape does
    not have. *)
Lemma C8_is_grayscale_field :
  "is_grayscale" ∈ keys (response Demo.isoformat Demo.front_view frame_buffer 0)
  ∧ "is_grayscale" ∉ documented_fields.
Proof.
  split.
  - apply (bool_decide_unpack _). vm_compute. reflexivity.
  - apply (bool_decide_unpack _). vm_compute. reflexivity.
Qed.

(** * Further properties of the frame buffer *)

Section BufferCalls.
Implicit Types (self : CameraFrameBuffer) (id : string) (calls : list call).

Lemma perform_counter self c id :
  frame_counts (perform self c) !! id
  = (λ n, n + set_frame_calls id [c]) <$> frame_counts self !! id.
Proof.
  destruct c as [id' p timestamp now | id' connected]; simpl.
  - rewrite set_frame_counts. destruct (decide (id' = id)) as [->|Hne].
    + destruct (frame_counts self !! id) as [n|] eqn:Hn.
      * by rewrite lookup_insert_eq.
      * by rewrite Hn.
    + assert (Hother : ∀ m : gmap string Z,
                m !! id = (λ n, n + (0 + 0)) <$> m !! id).
      { intros m. destruct (m !! id); simpl; [f_equal; lia|done]. }
      destruct (frame_counts self !! id') as [n'|].
      * rewrite lookup_insert_ne by done. apply Hother.
      * apply Hother.
  - destruct (frame_counts self !! id); simpl; [f_equal; lia|done].
Qed.

(** Along any sequence of calls, a camera's counter, if it has one,
    goes up by the number of [set_frame] calls made for that camera; a
    camera without a counter never gets one. *)
Theorem performs_counter calls self id :
  frame_counts (foldl perform self calls) !! id
  = (λ n, n + set_frame_calls id calls) <$> frame_counts self !! id.
Proof.
  revert self. induction calls as [|c calls IH]; intros self.
  - simpl. destruct (frame_counts self !! id); simpl; [f_equal; lia|done].
  - cbn [foldl]. rewrite IH, perform_counter.
    destruct (frame_counts self !! id) as [n|]; simpl; [|done].
    f_equal. destruct c as [id' ? ? ?|]; simpl; lia.
Qed.

(** Every key of [frames] is a key of [timestamps]: true of the
    initial buffer and kept by every call, failing ones included. *)
Lemma initial_keys : dom (frames frame_buffer) = dom (timestamps frame_buffer).
Proof.
  apply set_eq. intros id. rewrite !elem_of_dom. simpl.
  rewrite !dict_of_configs_lookup. by case_decide.
Qed.

Lemma set_frame_keys id p timestamp now self :
  dom (frames self) ⊆ dom (timestamps self) →
  dom (frames (set_frame id p timestamp now self).1)
  ⊆ dom (timestamps (set_frame id p timestamp now self).1).
Proof.
  intros Hsub. rewrite set_frame_frames, set_frame_timestamps.
  rewrite !dom_insert_L. by apply union_mono_l.
Qed.

Lemma perform_keys self c :
  dom (frames self) ⊆ dom (timestamps self) →
  dom (frames (perform self c)) ⊆ dom (timestamps (perform self c)).
Proof.
  destruct c as [id p timestamp now | id connected]; simpl; [|done].
  apply set_frame_keys.
Qed.

Lemma performs_keys calls self :
  dom (frames self) ⊆ dom (timestamps self) →
  dom (frames (foldl perform self calls))
  ⊆ dom (timestamps (foldl perform self calls)).
Proof.
  revert self. induction calls as [|c calls IH]; intros self Hsub; [done|].
  simpl. apply IH. by apply perform_keys.
Qed.

End BufferCalls.

(** What a call sequence leaves of a camera's timestamp and frame. *)

Section CallHistory.
Implicit Types (self : CameraFrameBuffer) (id : string) (calls : list call).

Lemma set_frame_calls_nonneg id calls : 0 ≤ set_frame_calls id calls.
Proof.
  induction calls as [|[id' ? ? ?|] calls IH]; simpl; [lia| |done].
  case_decide; lia.
Qed.

Lemma no_set_frame_calls id calls :
  set_frame_calls id calls = 0 ↔ last_set_frame id calls = None.
Proof.
  induction calls as [|c calls IH]; simpl; [done|].
  pose proof (set_frame_calls_nonneg id calls) as Hnonneg.
  destruct c as [id' p timestamp now|]; [|by destruct (last_set_frame id calls)].
  destruct (last_set_frame id calls) as [p'|].
  - split; [|done]. intros Hzero.
    assert (Hrest : set_frame_calls id calls = 0) by (case_decide; lia).
    by apply IH in Hrest.
  - case_decide; [split; [lia|done]|].
    split; [done|]. intros _. rewrite (proj2 IH); done.
Qed.

Lemma frames_key_kept calls self id :
  is_Some (frames self !! id) →
  is_Some (frames (foldl perform self calls) !! id).
Proof.
  revert self. induction calls as [|c calls IH]; intros self Hsome; [done|].
  simpl. apply IH. destruct c as [id' p timestamp now|]; simpl; [|done].
  rewrite set_frame_frames. destruct (decide (id' = id)) as [->|Hne].
  - rewrite lookup_insert_eq. eauto.
  - by rewrite lookup_insert_ne.
Qed.

Lemma timestamps_untouched calls self id :
  last_set_frame id calls = None →
  timestamps (foldl perform self calls) !! id = timestamps self !! id.
Proof.
  revert self. induction calls as [|c calls IH]; intros self; simpl; [done|].
  destruct (last_set_frame id calls) as [p|]; [done|].
  destruct c as [id' p timestamp now|]; simpl.
  - case_decide as Hid; [done|]. intros _. rewrite IH by done.
    rewrite set_frame_timestamps. by rewrite lookup_insert_ne.
  - intros _. by rewrite IH.
Qed.

Lemma timestamps_stamped calls self id :
  is_Some (last_set_frame id calls) →
  ∃ t, timestamps (foldl perform self calls) !! id = Some (Some t).
Proof.
  revert self. induction calls as [|c calls IH]; intros self; simpl.
  { by intros [? ?]. }
  destruct (last_set_frame id calls) as [p|] eqn:Hlast.
  - intros _. apply IH. eauto.
  - destruct c as [id' p timestamp now|]; simpl; [|by intros [? ?]].
    case_decide as Hid; [|by intros [? ?]]. subst id'. intros _.
    rewrite timestamps_untouched by done.
    rewrite set_frame_timestamps, lookup_insert_eq. eauto.
Qed.

Lemma connection_status_performs calls self id :
  connection_status (foldl perform self calls) !! id
  = match last_connection_status id calls with
    | Some connected => Some connected
    | None => connection_status self !! id
    end.
Proof.
  revert self. induction calls as [|c calls IH]; intros self; simpl; [done|].
  rewrite IH. destruct (last_connection_status id calls); [done|].
  destruct c as [id' p timestamp now | id' connected]; simpl.
  - by rewrite set_frame_status.
  - case_decide as Hid.
    + subst id'. by rewrite lookup_insert_eq.
    + by rewrite lookup_insert_ne.
Qed.

End CallHistory.

(** * Properties of the status reporter *)

Section StatusFacts.
Context (isoformat : datetime → string).

Local Abbreviation status_entry' := (status_entry isoformat).
Local Abbreviation status_entries' := (status_entries isoformat).
Local Abbreviation get_status' := (get_status isoformat).
Local Abbreviation health_check_handler' := (health_check_handler isoformat).

Implicit Types (self : CameraFrameBuffer) (id : string).

Lemma status_entry_ok self id :
  is_Some (timestamps self !! id) ↔ ∃ entry, status_entry' self id = Ok entry.
Proof.
  unfold status_entry. destruct (timestamps self !! id) as [t|]; split.
  - eauto.
  - eauto.
  - by intros [? ?].
  - by intros [? [=]].
Qed.

Lemma status_entry_raises self id e :
  status_entry' self id = Raise e →
  e = KeyError ∧ timestamps self !! id = None.
Proof.
  unfold status_entry. destruct (timestamps self !! id); [done|].
  by intros [= <-].
Qed.

Lemma status_entries_ok self ids :
  (∀ id, id ∈ ids → is_Some (timestamps self !! id)) →
  ∃ cameras,
    status_entries' self ids = Ok cameras
    ∧ ∀ id, cameras !! id
            = if decide (id ∈ ids)
              then match status_entry' self id with
                   | Ok entry => Some entry
                   | Raise _ => None
                   end
              else None.
Proof.
  induction ids as [|id ids IH]; intros Hall; simpl.
  - exists ∅. split; [done|]. intros id. rewrite lookup_empty.
    by destruct (decide (id ∈ [])) as [Hin%elem_of_nil|].
  - destruct (proj1 (status_entry_ok self id)) as [entry Hentry].
    { apply Hall. by left. }
    destruct IH as (cameras & Hcameras & Hlookup).
    { intros id' Hin. apply Hall. by right. }
    rewrite Hentry, Hcameras. eexists. split; [done|].
    intros id'. destruct (decide (id = id')) as [->|Hne].
    + rewrite lookup_insert_eq, Hentry.
      case_decide as Hin; [done|]. destruct Hin. by left.
    + rewrite lookup_insert_ne by done. rewrite Hlookup.
      destruct (decide (id' ∈ ids)) as [Hin|Hin];
        case_decide as Hin'; try done.
      * destruct Hin'. by right.
      * apply elem_of_cons in Hin' as [->|Hin']; done.
Qed.

Lemma status_entries_raises self ids e :
  status_entries' self ids = Raise e →
  e = KeyError ∧ ∃ id, id ∈ ids ∧ timestamps self !! id = None.
Proof.
  induction ids as [|id ids IH]; simpl; [done|].
  destruct (status_entry' self id) as [entry|e'] eqn:Hentry.
  - destruct (status_entries' self ids) as [cameras|e''] eqn:Hrest; [done|].
    intros [= Heq]. subst e''.
    destruct (IH eq_refl) as (He & id' & Hin & Hnone).
    split; [done|]. exists id'. split; [by right|done].
  - intros [= Heq]. subst e'.
    apply status_entry_raises in Hentry as [He Hnone].
    split; [done|]. exists id. split; [by left|done].
Qed.

(** [get_status] fails exactly when some key of [frames] is missing
    from [timestamps], and then with [KeyError]; otherwise it reports
    one entry for each key of [frames], each read from the buffer, and
    nothing else. *)
Theorem get_status_succeeds_iff_keys self now :
  (dom (frames self) ⊆ dom (timestamps self) →
   ∃ cameras,
     get_status' self now = Ok (isoformat now, cameras)
     ∧ dom cameras = dom (frames self)
     ∧ ∀ id entry, cameras !! id = Some entry →
                   status_entry' self id = Ok entry)
  ∧ (¬ dom (frames self) ⊆ dom (timestamps self) →
     get_status' self now = Raise KeyError).
Proof.
  split.
  - intros Hsub.
    destruct (status_entries_ok self (elements (dom (frames self))))
      as (cameras & Hcameras & Hlookup).
    { intros id Hin. apply elem_of_elements in Hin.
      apply elem_of_dom. by apply Hsub. }
    exists cameras. unfold get_status. rewrite Hcameras.
    split; [done|]. split.
    + apply set_eq. intros id. rewrite elem_of_dom, Hlookup.
      case_decide as Hin.
      * apply elem_of_elements in Hin. split; [done|]. intros _.
        destruct (proj1 (status_entry_ok self id)) as [entry ->]; [|done].
        apply elem_of_dom. by apply Hsub.
      * split; [by intros [? ?]|]. intros Hdom. destruct Hin.
        by apply elem_of_elements.
    + intros id entry. rewrite Hlookup. case_decide; [|done].
      by destruct (status_entry' self id); intros [= ->].
  - intros Hnot. unfold get_status.
    destruct (status_entries' self (elements (dom (frames self))))
      as [cameras|e] eqn:Hentries.
    + destruct Hnot. intros id Hin. apply elem_of_dom.
      apply status_entry_ok.
      apply elem_of_elements in Hin. revert Hin Hentries. clear.
      generalize (elements (dom (frames self))). intros ids. revert cameras.
      induction ids as [|id' ids IH]; intros cameras Hin; simpl.
      { by apply elem_of_nil in Hin. }
      destruct (status_entry' self id') as [entry|e] eqn:Hentry; [|done].
      destruct (status_entries' self ids) as [cameras'|e]; [|done].
      intros _. apply elem_of_cons in Hin as [->|Hin]; [eauto|].
      by eapply IH.
    + by apply status_entries_raises in Hentries as [-> _].
Qed.

(** After any sequence of calls on the initial buffer, [get_status]
    succeeds, and for a configured camera it reports: as [connected]
    the status given by the last [set_connection_status] call for it
    (false if there was none), as [frames_received] the number of
    [set_frame] calls made for it, and a [last_frame] that is null
    exactly when there was none. *)
Theorem get_status_after_calls (calls : list call) (now : datetime)
    (config : CameraConfig) :
  config ∈ CAMERA_CONFIGS →
  let self := foldl perform frame_buffer calls in
  ∃ cameras last,
    get_status' self now = Ok (isoformat now, cameras)
    ∧ dom cameras = dom (frames self)
    ∧ cameras !! camera_id config
      = Some [ ("connected",
                PyBool (default false
                          (last_connection_status (camera_id config) calls)));
               ("frames_received",
                PyInt (set_frame_calls (camera_id config) calls));
               ("last_frame", last) ]
    ∧ (last = PyNone ↔ set_frame_calls (camera_id config) calls = 0).
Proof.
  intros Hin self.
  assert (Hid : camera_id config ∈ camera_id <$> CAMERA_CONFIGS)
    by (by apply list_elem_of_fmap_2).
  destruct (proj1 (get_status_succeeds_iff_keys self now))
    as (cameras & Hok & Hdom & Hentries).
  { apply performs_keys. by rewrite initial_keys. }
  assert (Hcount : frame_counts self !! camera_id config
                   = Some (set_frame_calls (camera_id config) calls)).
  { unfold self. by rewrite performs_counter, (configured_counter config Hin). }
  assert (Hstatus : get_connection_status self (camera_id config)
                    = default false
                        (last_connection_status (camera_id config) calls)).
  { unfold get_connection_status, self.
    rewrite connection_status_performs.
    destruct (last_connection_status (camera_id config) calls); [done|].
    simpl. rewrite dict_of_configs_lookup. by rewrite decide_True. }
  assert (Hkey : camera_id config ∈ dom cameras).
  { rewrite Hdom. apply elem_of_dom, frames_key_kept. simpl.
    rewrite dict_of_configs_lookup. rewrite decide_True by done. eauto. }
  apply elem_of_dom in Hkey as [entry Hentry].
  pose proof (Hentries _ _ Hentry) as Hread.
  unfold status_entry, get_frame_count in Hread.
  rewrite Hcount, Hstatus in Hread.
  destruct (timestamps self !! camera_id config) as [t|] eqn:Ht; [|done].
  injection Hread as <-. simpl in Hentry.
  eexists cameras, _. split; [done|]. split; [done|]. split; [exact Hentry|].
  rewrite no_set_frame_calls.
  destruct (last_set_frame (camera_id config) calls) as [p|] eqn:Hlast.
  - destruct (timestamps_stamped calls frame_buffer (camera_id config))
      as [t' Ht']; [rewrite Hlast; eauto|].
    fold self in Ht'. rewrite Ht in Ht'. injection Ht' as ->.
    split; discriminate.
  - pose proof (timestamps_untouched calls frame_buffer _ Hlast) as Hsame.
    fold self in Hsame. rewrite Ht in Hsame. simpl in Hsame.
    rewrite dict_of_configs_lookup in Hsame.
    rewrite decide_True in Hsame by done. by injection Hsame as ->.
Qed.

(** A failed [set_frame] for an identifier that is not configured still
    adds a camera to the report: connected as last set (else not
    connected), 0 frames received, and the time of the failed call as
    its last frame. *)
Theorem get_status_lists_unconfigured (calls : list call) (id : string)
    (p : payload) (timestamp : option datetime) (now later : datetime) :
  id ∉ configured_ids →
  let self := foldl perform frame_buffer calls in
  let after := (set_frame id p timestamp now self).1 in
  (set_frame id p timestamp now self).2 = Raise KeyError
  ∧ ∃ cameras,
      get_status' after later = Ok (isoformat later, cameras)
      ∧ cameras !! id
        = Some [ ("connected", PyBool (get_connection_status self id));
                 ("frames_received", PyInt 0);
                 ("last_frame", PyStr (isoformat (default now timestamp))) ].
Proof.
  intros Hid self after.
  assert (Hmissing : frame_counts self !! id = None).
  { apply performs_counter_missing. simpl.
    rewrite dict_of_configs_lookup. by rewrite decide_False. }
  split; [by rewrite set_frame_eq, Hmissing|].
  destruct (proj1 (get_status_succeeds_iff_keys after later))
    as (cameras & Hok & Hdom & Hentries).
  { apply set_frame_keys, performs_keys. by rewrite initial_keys. }
  exists cameras. split; [done|].
  assert (Hkey : id ∈ dom cameras).
  { rewrite Hdom. apply elem_of_dom. unfold after.
    rewrite set_frame_frames, lookup_insert_eq. eauto. }
  apply elem_of_dom in Hkey as [entry Hentry]. rewrite Hentry. f_equal.
  pose proof (Hentries _ _ Hentry) as Hread. revert Hread.
  unfold status_entry, get_frame_count, get_connection_status, after.
  rewrite set_frame_timestamps, set_frame_counts, set_frame_status.
  rewrite lookup_insert_eq, Hmissing, Hmissing. by intros [= <-].
Qed.


End StatusFacts.

Lemma get_status_succeeds_iff_keys_witness :
  (∃ cameras, get_status Demo.isoformat frame_buffer 0
              = Ok (Demo.isoformat 0, cameras))
  ∧ get_status Demo.isoformat
      {| frames := {["front_view" := None]}; timestamps := ∅;
         frame_counts := ∅; connection_status := ∅ |} 0
    = Raise KeyError.
Proof.
  split.
  - destruct (proj1 (get_status_succeeds_iff_keys Demo.isoformat frame_buffer 0))
      as (cameras & Hok & _).
    { by rewrite initial_keys. }
    by exists cameras.
  - apply (proj2 (get_status_succeeds_iff_keys Demo.isoformat _ 0)). simpl.
    rewrite dom_empty_L, dom_singleton_L. intros Hsub.
    apply (not_elem_of_empty (C:=gset string) "front_view").
    apply Hsub. by apply elem_of_singleton.
Defined.

Lemma get_status_after_calls_witness :
  Demo.front_view ∈ CAMERA_CONFIGS
  ∧ ∃ cameras last,
      get_status Demo.isoformat
        (foldl perform frame_buffer
           [SetConnectionStatus "front_view" true;
            SetFrame "front_view" (Str "abc") None 7]) 9
      = Ok (Demo.isoformat 9, cameras)
      ∧ cameras !! "front_view"
        = Some [ ("connected", PyBool true);
                 ("frames_received", PyInt 1);
                 ("last_frame", last) ].
Proof.
  assert (Hin : Demo.front_view ∈ CAMERA_CONFIGS) by apply list_elem_of_here.
  split; [exact Hin|].
  destruct (get_status_after_calls Demo.isoformat
              [SetConnectionStatus "front_view" true;
               SetFrame "front_view" (Str "abc") None 7] 9
              Demo.front_view Hin)
    as (cameras & last & Hok & _ & Hentry & _).
  exists cameras, last. split; [exact Hok|exact Hentry].
Defined.

Lemma get_status_lists_unconfigured_witness :
  ("side_view" ∉ configured_ids)
  ∧ ∃ cameras,
      get_status Demo.isoformat
        (set_frame "side_view" (Str "abc") (Some 3) 7 frame_buffer).1 9
      = Ok (Demo.isoformat 9, cameras)
      ∧ is_Some (cameras !! "side_view").
Proof.
  assert (H : "side_view" ∉ configured_ids).
  { apply (bool_decide_unpack _). vm_compute. reflexivity. }
  split; [exact H|].
  destruct (get_status_lists_unconfigured Demo.isoformat [] "side_view"
              (Str "abc") (Some 3) 7 9 H)
    as (_ & cameras & Hok & Hentry).
  exists cameras. split; [exact Hok|]. rewrite Hentry. eauto.
Defined.


(** * Further properties of the ingest connector *)

Section ReceiverRuns.
Context (ndarray : Type)
  (b64decode_str : string → option bytes)
  (imdecode : bytes → result (option ndarray))
  (imencode : ndarray → result (bool * bytes))
  (b64encode_str : bytes → string).

Local Abbreviation parse_message' := (parse_message b64decode_str).
Local Abbreviation re_encoded' :=
  (re_encoded ndarray b64decode_str imdecode imencode b64encode_str).
Local Abbreviation stream_iteration' :=
  (stream_iteration ndarray b64decode_str imdecode imencode b64encode_str).
Local Abbreviation step' :=
  (step ndarray b64decode_str imdecode imencode b64encode_str).
Local Abbreviation advance' :=
  (advance ndarray b64decode_str imdecode imencode b64encode_str).
Local Abbreviation run' :=
  (run ndarray b64decode_str imdecode imencode b64encode_str).
Local Abbreviation resume' :=
  (resume ndarray b64decode_str imdecode imencode b64encode_str).
Local Abbreviation main' :=
  (main ndarray b64decode_str imdecode imencode b64encode_str).
Local Abbreviation receive_camera_feed' :=
  (receive_camera_feed ndarray b64decode_str imdecode imencode b64encode_str).

Implicit Types (self : CameraFrameBuffer) (config : CameraConfig)
  (d : data) (w : world) (e : exn) (ev : event).

(** Every way one resumption can change the receiver. *)
Lemma advance_cases config max_retries w ev :
  let w' := advance' config max_retries w ev in
  let status := connection_status (buffer w) in
  let id := camera_id config in
  let r := retry_count (task w) in
  (task w' = task w ∧ log w' = log w
   ∧ connection_status (buffer w') = status)
  ∨ (phase_of (task w) = Connecting
     ∧ task w' = {| phase_of := Streaming; retry_count := 0 |}
     ∧ log w' = log w
     ∧ connection_status (buffer w') = <[id := true]> status)
  ∨ (phase_of (task w) = Connecting ∧ r + 1 ≤ max_retries
     ∧ task w' = {| phase_of := Connecting; retry_count := r + 1 |}
     ∧ log w' = log w ++ [Sleep (backoff_wait (r + 1)); Connect]
     ∧ connection_status (buffer w') = <[id := false]> status)
  ∨ (phase_of (task w) = Connecting ∧ max_retries < r + 1
     ∧ task w' = {| phase_of := Returned; retry_count := r + 1 |}
     ∧ log w' = log w
     ∧ connection_status (buffer w') = <[id := false]> status)
  ∨ (phase_of (task w) = Connecting
     ∧ task w' = {| phase_of := Connecting; retry_count := r |}
     ∧ log w' = log w ++ [Sleep 5; Connect]
     ∧ connection_status (buffer w') = <[id := false]> status)
  ∨ (phase_of (task w) = Streaming
     ∧ task w' = {| phase_of := Connecting; retry_count := r |}
     ∧ log w' = log w ++ [Close; Connect]
     ∧ buffer w' = buffer w).
Proof.
  simpl. destruct (phase_of (task w)) eqn:Hphase.
  - destruct ev as [[[]|e]|now r].
    + right. left. by rewrite advance_connected.
    + destruct (connection_lost e) eqn:He.
      * destruct (Z.le_gt_cases (retry_count (task w) + 1) max_retries)
          as [Hle|Hgt].
        -- right. right. left.
           unfold advance, step, bind. rewrite Hphase, He. simpl.
           destruct (Z.ltb_spec max_retries (retry_count (task w) + 1));
             [lia|done].
        -- right. right. right. left.
           unfold advance, step, bind. rewrite Hphase, He. simpl.
           destruct (Z.ltb_spec max_retries (retry_count (task w) + 1));
             [|lia].
           simpl. by rewrite app_nil_r.
      * do 4 right. left. by rewrite advance_connect_error.
    + left. unfold advance, step. rewrite Hphase. simpl.
      by rewrite app_nil_r.
  - destruct ev as [r|now [d|e]].
    + left. unfold advance, step. rewrite Hphase. simpl.
      by rewrite app_nil_r.
    + destruct (re_encoded' d) as [s|] eqn:Hd.
      * left. rewrite (advance_accept _ _ _ _ _ _ _ _ _ d s) by done.
        simpl. by rewrite set_frame_status.
      * destruct (parse_message' d) as [jpg|e] eqn:Hparse.
        -- left. by rewrite (advance_undecodable _ _ _ _ _ _ _ _ _ d jpg).
        -- destruct (invalid_message_format e) eqn:He.
           ++ left. by rewrite (advance_invalid_format _ _ _ _ _ _ _ _ _ d e).
           ++ do 5 right.
              by rewrite (advance_unhandled _ _ _ _ _ _ _ _ _ d e).
    + do 5 right. by rewrite advance_recv_raises.
  - left. by rewrite advance_returned.
Qed.


Lemma backoff_wait_bounds k : 1 ≤ k → 2 ≤ backoff_wait k ≤ 30.
Proof.
  intros Hk. unfold backoff_wait.
  assert (2 ^ 1 ≤ 2 ^ k) by (apply Z.pow_le_mono_r; lia).
  change (2 ^ 1) with 2 in *. lia.
Qed.

(** The receiver never sleeps less than 2 or more than 30 time units,
    whatever happens and whatever the retry budget is. *)
Theorem sleeps_between_2_and_30 config max_retries self evs :
  Forall (λ n, 2 ≤ n ≤ 30)
    (sleeps (log (run' config max_retries (start self) evs))).
Proof.
  assert (Hinv : ∀ w,
    0 ≤ retry_count (task w) →
    Forall (λ n, 2 ≤ n ≤ 30) (sleeps (log w)) →
    Forall (λ n, 2 ≤ n ≤ 30) (sleeps (log (run' config max_retries w evs)))).
  { induction evs as [|ev evs IH]; intros w Hretry Hlog; [done|].
    simpl. apply IH.
    - destruct (advance_cases config max_retries w ev)
        as [(-> & _)|[(_ & -> & _)|[(_ & _ & -> & _)|[(_ & _ & -> & _)
           |[(_ & -> & _)|(_ & -> & _)]]]]]; simpl; lia.
    - destruct (advance_cases config max_retries w ev)
        as [(_ & -> & _)|[(_ & _ & -> & _)|[(_ & _ & _ & -> & _)
           |[(_ & _ & _ & -> & _)|[(_ & _ & -> & _)|(_ & _ & -> & _)]]]]];
        try done; unfold sleeps; rewrite omap_app; apply Forall_app;
        (split; [done|]); simpl; repeat constructor; try lia;
        apply backoff_wait_bounds; lia. }
  apply Hinv; simpl; [lia|constructor].
Qed.

(** What holds of a receiver at every moment of any run: the retry
    count stays within the budget plus one; while it streams the retry
    count is 0 and the camera is marked connected; once it has returned
    the retry count is one past the budget and the camera is marked
    disconnected. *)
Theorem receiver_invariant config max_retries self evs :
  0 ≤ max_retries →
  let w := run' config max_retries (start self) evs in
  0 ≤ retry_count (task w) ≤ max_retries + 1
  ∧ (phase_of (task w) = Connecting → retry_count (task w) ≤ max_retries)
  ∧ (phase_of (task w) = Streaming →
     retry_count (task w) = 0
     ∧ get_connection_status (buffer w) (camera_id config) = true)
  ∧ (phase_of (task w) = Returned →
     retry_count (task w) = max_retries + 1
     ∧ get_connection_status (buffer w) (camera_id config) = false).
Proof.
  intros Hmax. simpl.
  set (inv := λ w : world,
    0 ≤ retry_count (task w) ≤ max_retries + 1
    ∧ (phase_of (task w) = Connecting → retry_count (task w) ≤ max_retries)
    ∧ (phase_of (task w) = Streaming →
       retry_count (task w) = 0
       ∧ connection_status (buffer w) !! camera_id config = Some true)
    ∧ (phase_of (task w) = Returned →
       retry_count (task w) = max_retries + 1
       ∧ connection_status (buffer w) !! camera_id config = Some false)).
  assert (Hrun : ∀ w, inv w → inv (run' config max_retries w evs)).
  { induction evs as [|ev evs IH]; intros w Hw; [done|].
    simpl. apply IH. destruct Hw as (H1 & H2 & H3 & H4). unfold inv.
    destruct (advance_cases config max_retries w ev)
      as [(Ht & _ & Hs)|[(Hp & Ht & _ & Hs)|[(Hp & Hle & Ht & _ & Hs)
         |[(Hp & Hlt & Ht & _ & Hs)|[(Hp & Ht & _ & Hs)|(Hp & Ht & _ & Hb)]]]]];
      rewrite Ht; try rewrite Hs; try rewrite Hb; simpl.
    - done.
    - rewrite lookup_insert_eq. repeat split; try done; lia.
    - specialize (H2 Hp). repeat split; try done; lia.
    - specialize (H2 Hp). rewrite lookup_insert_eq.
      repeat split; try done; lia.
    - specialize (H2 Hp). repeat split; try done; lia.
    - destruct (H3 Hp) as [H0 _]. repeat split; try done; lia. }
  destruct (Hrun (start self)) as (H1 & H2 & H3 & H4).
  { unfold inv. simpl. repeat split; try done; lia. }
  unfold get_connection_status.
  split; [done|]. split; [done|]. split.
  - intros Hp. destruct (H3 Hp) as [? ->]. done.
  - intros Hp. destruct (H4 Hp) as [? ->]. done.
Qed.

(** A source that accepts the connection and whose stream then fails
    is reconnected at once, every time: however often this repeats, the
    receiver never sleeps, the retry count stays 0 and the budget is
    never used up. *)
Theorem reconnects_without_backoff config max_retries w
    (failures : list (datetime * exn)) :
  phase_of (task w) = Connecting →
  failures ≠ [] →
  let w' := run' config max_retries w
              (failures ≫= λ f, [Connected (Ok tt); Received f.1 (Raise f.2)]) in
  task w' = {| phase_of := Connecting; retry_count := 0 |}
  ∧ sleeps (log w') = sleeps (log w)
  ∧ attempts (log w') = (attempts (log w) + length failures)%nat
  ∧ get_connection_status (buffer w') (camera_id config) = true.
Proof.
  intros Hphase Hne. simpl.
  assert (Hround : ∀ w0 f,
    phase_of (task w0) = Connecting →
    let w1 := run' config max_retries w0
                [Connected (Ok tt); Received f.1 (Raise f.2)] in
    task w1 = {| phase_of := Connecting; retry_count := 0 |}
    ∧ sleeps (log w1) = sleeps (log w0)
    ∧ attempts (log w1) = S (attempts (log w0))
    ∧ connection_status (buffer w1) !! camera_id config = Some true).
  { intros w0 f Hp. simpl. rewrite advance_connected by done.
    rewrite advance_recv_raises by done. simpl.
    split; [done|]. split.
    - unfold sleeps. rewrite omap_app. simpl. by rewrite app_nil_r.
    - split.
      + unfold attempts. rewrite filter_app, length_app. simpl. lia.
      + by rewrite lookup_insert_eq. }
  revert w Hphase. induction failures as [|f failures IH]; [done|].
  intros w Hphase. cbn [mbind list_bind]. unfold run. rewrite foldl_app.
  fold (run' config max_retries w
          [Connected (Ok tt); Received f.1 (Raise f.2)]).
  destruct (Hround w f Hphase) as (Ht & Hs & Ha & Hc).
  set (w1 := run' config max_retries w
               [Connected (Ok tt); Received f.1 (Raise f.2)]) in *.
  destruct failures as [|f' failures].
  - simpl. unfold get_connection_status. rewrite Hc.
    split; [done|]. split; [done|]. split; [lia|done].
  - destruct (IH ltac:(done) w1) as (Ht' & Hs' & Ha' & Hc').
    { by rewrite Ht. }
    unfold run in Ht', Hs', Ha', Hc'.
    rewrite Ht', Hs', Ha', Hc', Hs, Ha. simpl.
    split; [done|]. split; [done|]. split; [lia|done].
Qed.



(** *** One camera among the others *)

(** Whether the inner loop goes on does not depend on the buffer. *)
Lemma stream_iteration_control config now r self :
  (stream_iteration' config now r self).2
  = Ok match r with
       | Raise _ => Break
       | Ok d =>
           match parse_message' d with
           | Ok _ => Continue
           | Raise e => if invalid_message_format e then Continue else Break
           end
       end.
Proof.
  destruct r as [d|e]; [|by rewrite stream_iteration_raise].
  destruct (re_encoded' d) as [s|] eqn:Hd.
  - rewrite (stream_iteration_accept _ _ _ _ _ _ _ _ s) by done. simpl.
    revert Hd. unfold re_encoded. by destruct (parse_message' d).
  - clear Hd. unfold stream_iteration, process_frame.
    destruct (parse_message' d) as [jpg|e]; [|by destruct (invalid_message_format e)].
    unfold bind, try_except, lift, ret, read_frame_count.
    destruct (imdecode jpg) as [[frame|]|e]; [|done..].
    destruct (imencode frame) as [[[] buffer]|e]; [|done..].
    simpl. rewrite set_frame_eq. simpl.
    destruct (frame_counts self !! camera_id config); simpl; [|done].
    by rewrite lookup_insert_eq.
Qed.

Lemma step_result_any_buffer config max_retries t ev self self' :
  (step' config max_retries t ev self).2
  = (step' config max_retries t ev self').2.
Proof.
  destruct (phase_of t) eqn:Hphase, ev as [[[]|e]|now r];
    try (unfold step; rewrite Hphase; done).
  - unfold step. rewrite Hphase. unfold bind. simpl.
    destruct (connection_lost e); [|done].
    by destruct (max_retries <? retry_count t + 1)%Z.
  - rewrite !step_streaming by done.
    pose proof (stream_iteration_control config now r self) as H1.
    pose proof (stream_iteration_control config now r self') as H2.
    destruct (stream_iteration' config now r self) as [s1 [c1|e1]];
      destruct (stream_iteration' config now r self') as [s2 [c2|e2]];
      simpl in *; try congruence.
    assert (c1 = c2) as -> by congruence. by destruct c2.
Qed.

(** A resumption touches nothing of another camera. *)
Lemma step_slot_other config max_retries t ev self id :
  id ≠ camera_id config →
  slot (step' config max_retries t ev self).1 id = slot self id.
Proof.
  intros Hne. rewrite step_buffer. unfold slot.
  destruct (phase_of t), ev as [[[]|e]|now [d|e]];
    try (simpl; rewrite ?lookup_insert_ne by done; done).
  - destruct (re_encoded' d) as [s|] eqn:Hd.
    + rewrite (stream_iteration_accept _ _ _ _ _ _ _ _ s) by done. simpl.
      rewrite set_frame_frames, set_frame_timestamps, set_frame_counts,
        set_frame_status.
      rewrite !lookup_insert_ne by done.
      destruct (frame_counts self !! camera_id config); [|done].
      by rewrite lookup_insert_ne.
    + by rewrite stream_iteration_reject.
  - by rewrite stream_iteration_raise.
Qed.

(** What it leaves of its own camera depends only on what the buffer
    held for that camera. *)
Lemma step_slot_own config max_retries t ev self self' :
  slot self (camera_id config) = slot self' (camera_id config) →
  slot (step' config max_retries t ev self).1 (camera_id config)
  = slot (step' config max_retries t ev self').1 (camera_id config).
Proof.
  unfold slot. intros [= Hf Ht Hc Hs]. rewrite !step_buffer.
  destruct (phase_of t), ev as [[[]|e]|now [d|e]];
    try (simpl; rewrite ?lookup_insert_eq, ?Hf, ?Ht, ?Hc, ?Hs; done).
  - destruct (re_encoded' d) as [s|] eqn:Hd.
    + rewrite !(stream_iteration_accept _ _ _ _ _ _ _ _ s) by done. simpl.
      rewrite !set_frame_frames, !set_frame_timestamps, !set_frame_counts,
        !set_frame_status.
      rewrite !lookup_insert_eq, Hc, Hs.
      destruct (frame_counts self' !! camera_id config) eqn:Hn;
        by rewrite ?lookup_insert_eq, ?Hc, ?Hn.
    + rewrite !stream_iteration_reject by done. by rewrite Hf, Ht, Hc, Hs.
  - rewrite !stream_iteration_raise. simpl. by rewrite Hf, Ht, Hc, Hs.
Qed.

(** A receiver changes nothing the buffer holds for any other camera. *)
Theorem receiver_leaves_other_cameras config max_retries w evs id :
  id ≠ camera_id config →
  slot (buffer (run' config max_retries w evs)) id = slot (buffer w) id.
Proof.
  intros Hne. revert w. induction evs as [|ev evs IH]; intros w; [done|].
  simpl. rewrite IH. unfold advance.
  pose proof (step_slot_other config max_retries (task w) ev (buffer w) id Hne)
    as Hslot.
  by destruct (step' config max_retries (task w) ev (buffer w))
    as [self' [[t' effects]|e]].
Qed.

(** Under any interleaving of the seven receivers, each camera's
    receiver and everything the buffer holds for that camera are what
    they would be had that receiver run alone on its own events. *)
Theorem cameras_run_independently (i : nat) (config : CameraConfig)
    (schedule : list (nat * event)) :
  CAMERA_CONFIGS !! i = Some config →
  let alone := receive_camera_feed' config (events_of i schedule) in
  receiver_tasks (main' schedule) !! i = Some (task alone)
  ∧ slot (shared (main' schedule)) (camera_id config)
    = slot (buffer alone) (camera_id config).
Proof.
  intros Hi. simpl. unfold main, receive_camera_feed.
  assert (Hgen : ∀ sys w,
    receiver_tasks sys !! i = Some (task w) →
    slot (shared sys) (camera_id config) = slot (buffer w) (camera_id config) →
    receiver_tasks (foldl resume' sys schedule) !! i
    = Some (task (run' config 5 w (events_of i schedule)))
    ∧ slot (shared (foldl resume' sys schedule)) (camera_id config)
      = slot (buffer (run' config 5 w (events_of i schedule))) (camera_id config)).
  { induction schedule as [|[j ev] schedule IH]; intros sys w Htask Hslot;
      [done|].
    cbn [foldl events_of omap list_omap]. simpl.
    destruct (decide (j = i)) as [->|Hji].
    - cbn [run foldl]. apply IH.
      + unfold resume, advance. simpl. rewrite Hi, Htask.
        pose proof (step_result_any_buffer config 5 (task w) ev
                      (shared sys) (buffer w)) as Hres.
        destruct (step' config 5 (task w) ev (shared sys))
          as [s1 [[t1 eff1]|e1]];
          destruct (step' config 5 (task w) ev (buffer w))
            as [s2 [[t2 eff2]|e2]]; simpl in *; try congruence.
        injection Hres as -> ->.
        apply list_lookup_insert_eq. by eapply lookup_lt_Some.
      + unfold resume, advance. simpl. rewrite Hi, Htask.
        pose proof (step_slot_own config 5 (task w) ev _ _ Hslot) as Hown.
        by destruct (step' config 5 (task w) ev (shared sys))
          as [s1 [[t1 eff1]|e1]];
          destruct (step' config 5 (task w) ev (buffer w))
            as [s2 [[t2 eff2]|e2]].
    - apply IH.
      + unfold resume. simpl.
        destruct (CAMERA_CONFIGS !! j) as [config'|]; [|done].
        destruct (receiver_tasks sys !! j) as [t|]; [|done].
        destruct (step' config' 5 t ev (shared sys)) as [s1 [[t1 eff1]|e1]];
          simpl; [|done].
        by rewrite list_lookup_insert_ne.
      + rewrite <- Hslot. unfold resume. simpl.
        destruct (CAMERA_CONFIGS !! j) as [config'|] eqn:Hj; [|done].
        destruct (receiver_tasks sys !! j) as [t|]; [|done].
        assert (Hne : camera_id config ≠ camera_id config').
        { intros Heq. apply Hji. symmetry.
          by eapply configured_ids_distinct. }
        pose proof (step_slot_other config' 5 t ev (shared sys) _ Hne) as Hother.
        by destruct (step' config' 5 t ev (shared sys)) as [s1 [[t1 eff1]|e1]]. }
  apply Hgen; [|done].
  unfold main_start. cbn [receiver_tasks start task].
  by rewrite list_lookup_fmap, Hi.
Qed.


(** While streaming, these messages are dropped where they are and
    change nothing at all (the buffer, the receiver, the log): a
    message that [json.loads] rejects with [JSONDecodeError], a JSON
    object without an [image] key, and a message whose image does not
    decode or does not re-encode. *)
Theorem dropped_messages_change_nothing config max_retries w now d :
  phase_of (task w) = Streaming →
  json_loads d = Raise JSONDecodeError
  ∨ (∃ items, d = Json (PyDict items) ∧ dict_lookup "image" items = None)
  ∨ (∃ jpg_bytes, parse_message' d = Ok jpg_bytes ∧ re_encoded' d = None) →
  advance' config max_retries w (Received now (Ok d)) = w.
Proof.
  intros Hphase [Hloads|[(items & -> & Hkey)|(jpg & Hparse & Hnone)]].
  - apply (advance_invalid_format _ _ _ _ _ _ _ _ _ _ JSONDecodeError);
      [done| |done].
    unfold parse_message. by rewrite Hloads.
  - apply (advance_invalid_format _ _ _ _ _ _ _ _ _ _ KeyError); [done| |done].
    unfold parse_message. simpl. by rewrite Hkey.
  - by eapply advance_undecodable.
Qed.

(** A streaming receiver of a configured camera never adds or removes
    a key of the buffer. *)
Lemma step_keys config max_retries t ev self :
  camera_id config ∈ dom (frames self) →
  camera_id config ∈ dom (timestamps self) →
  dom (frames (step' config max_retries t ev self).1) = dom (frames self)
  ∧ dom (timestamps (step' config max_retries t ev self).1)
    = dom (timestamps self).
Proof.
  intros Hf Ht. rewrite step_buffer.
  destruct (phase_of t), ev as [[[]|e]|now [d|e]]; try done.
  - destruct (re_encoded' d) as [s|] eqn:Hd.
    + rewrite (stream_iteration_accept _ _ _ _ _ _ _ _ s) by done. simpl.
      rewrite set_frame_frames, set_frame_timestamps, !dom_insert_L.
      split; apply set_eq; intros x;
        rewrite elem_of_union, elem_of_singleton;
        (split; [by intros [->|?]|by right]).
    + by rewrite stream_iteration_reject.
  - by rewrite stream_iteration_raise.
Qed.

Lemma initial_frames_keys :
  dom (frames frame_buffer) = list_to_set configured_ids.
Proof.
  apply set_eq. intros id. rewrite elem_of_dom, elem_of_list_to_set. simpl.
  rewrite dict_of_configs_lookup. unfold configured_ids.
  case_decide as Hin; split; by intros H.
Qed.

Lemma main_keys schedule :
  dom (frames (shared (main' schedule))) = list_to_set configured_ids
  ∧ dom (timestamps (shared (main' schedule))) = list_to_set configured_ids.
Proof.
  unfold main.
  assert (Hgen : ∀ sys,
    dom (frames (shared sys)) = list_to_set configured_ids
    ∧ dom (timestamps (shared sys)) = list_to_set configured_ids →
    dom (frames (shared (foldl resume' sys schedule)))
    = list_to_set configured_ids
    ∧ dom (timestamps (shared (foldl resume' sys schedule)))
      = list_to_set configured_ids).
  { induction schedule as [|[j ev] schedule IH]; intros sys Hsys; [done|].
    simpl. apply IH. unfold resume. simpl.
    destruct (CAMERA_CONFIGS !! j) as [config|] eqn:Hj; [|done].
    destruct (receiver_tasks sys !! j) as [t|]; [|done].
    destruct Hsys as [Hf Ht].
    assert (Hid : camera_id config ∈ (list_to_set configured_ids : gset string)).
    { apply elem_of_list_to_set, list_elem_of_fmap_2.
      by eapply list_elem_of_lookup_2. }
    destruct (step_keys config 5 t ev (shared sys)) as [Hf' Ht'].
    { by rewrite Hf. }
    { by rewrite Ht. }
    destruct (step' config 5 t ev (shared sys)) as [s1 [[t1 eff1]|e1]];
      simpl in *; by rewrite Hf', Ht'. }
  apply Hgen. unfold main_start. cbn [shared].
  split; [apply initial_frames_keys|].
  rewrite <- initial_keys. apply initial_frames_keys.
Qed.


(** *** From the source to the viewers and to the status report *)

Section Relay.
Context (isoformat : datetime → string).

Local Abbreviation response' := (response isoformat).
Local Abbreviation get_status' := (get_status isoformat).

Lemma str_encode_nonempty s : s ≠ "" → str_encode s ≠ [].
Proof. by destruct s. Qed.

(** A frame accepted while streaming is what the viewers are sent from
    the next tick on: the message carries the re-encoded text (not the
    text the source sent), the frame is stamped with the time of
    receipt, and the counter has gone up by one. *)
Theorem accepted_frame_is_broadcast config max_retries w now d s tick n :
  phase_of (task w) = Streaming →
  re_encoded' d = Some s →
  s ≠ "" →
  frame_counts (buffer w) !! camera_id config = Some n →
  let w' := advance' config max_retries w (Received now (Ok d)) in
  response' config (buffer w') tick
  = [ ("camera_id", PyStr (camera_id config));
      ("camera_name", PyStr (name config));
      ("timestamp", PyStr (isoformat tick));
      ("image", PyStr s);
      ("is_grayscale", PyBool false);
      ("source_connected",
       PyBool (get_connection_status (buffer w) (camera_id config))) ]
  ∧ timestamps (buffer w') !! camera_id config = Some (Some now)
  ∧ frame_counts (buffer w') !! camera_id config = Some (n + 1)
  ∧ task w' = task w ∧ log w' = log w.
Proof.
  intros Hphase Hd Hs Hn. simpl.
  rewrite (advance_accept _ _ _ _ _ _ _ _ _ d s) by done. simpl.
  split; [|split; [|split]].
  - rewrite (response_present isoformat config _ tick (str_encode s)).
    + unfold get_connection_status.
      by rewrite set_frame_status, bytes_decode_encode.
    + unfold get_frame. by rewrite set_frame_frames, lookup_insert_eq.
    + by apply str_encode_nonempty.
  - by rewrite set_frame_timestamps, lookup_insert_eq.
  - by apply set_frame_count_known.
  - done.
Qed.

(** Whatever the receivers have done, the status report lists exactly
    the configured cameras, and for each of them the number of frames
    its receiver has accepted; a camera whose receiver is streaming is
    reported connected, one whose receiver has given up is reported
    disconnected. *)
Theorem status_report_of_main (i : nat) (config : CameraConfig)
    (schedule : list (nat * event)) (now : datetime) (t : receiver) :
  CAMERA_CONFIGS !! i = Some config →
  receiver_tasks (main' schedule) !! i = Some t →
  ∃ cameras connected last,
    get_status' (shared (main' schedule)) now = Ok (isoformat now, cameras)
    ∧ dom cameras = list_to_set configured_ids
    ∧ cameras !! camera_id config
      = Some [ ("connected", PyBool connected);
               ("frames_received",
                PyInt (accepted_frames ndarray b64decode_str imdecode imencode
                         b64encode_str i main_start schedule));
               ("last_frame", last) ]
    ∧ (phase_of t = Streaming → connected = true)
    ∧ (phase_of t = Returned → connected = false).
Proof.
  intros Hi Htask.
  destruct (main_keys schedule) as [Hf Ht].
  destruct (proj1 (get_status_succeeds_iff_keys isoformat
                     (shared (main' schedule)) now))
    as (cameras & Hok & Hdom & Hentries).
  { by rewrite Hf, Ht. }
  assert (Hin : config ∈ CAMERA_CONFIGS) by (by eapply list_elem_of_lookup_2).
  assert (Hkey : camera_id config ∈ dom cameras).
  { rewrite Hdom, Hf. by apply elem_of_list_to_set, list_elem_of_fmap_2. }
  apply elem_of_dom in Hkey as [entry Hentry].
  pose proof (Hentries _ _ Hentry) as Hread.
  assert (Hcount : frame_counts (shared (main' schedule)) !! camera_id config
                   = Some (accepted_frames ndarray b64decode_str imdecode
                             imencode b64encode_str i main_start schedule)).
  { unfold main.
    rewrite (resumes_counter _ _ _ _ _ i config schedule main_start 0 Hi).
    - f_equal; lia.
    - by apply configured_counter. }
  unfold status_entry, get_frame_count in Hread. rewrite Hcount in Hread.
  destruct (timestamps (shared (main' schedule)) !! camera_id config)
    as [stamp|]; [|done].
  injection Hread as <-. simpl in Hentry.
  eexists cameras, _, _. split; [done|]. split; [by rewrite Hdom, Hf|].
  split; [exact Hentry|].
  destruct (cameras_run_independently i config schedule Hi) as [Halone Hslot].
  rewrite Htask in Halone. injection Halone as ->.
  injection Hslot as _ _ _ Hstatus.
  unfold get_connection_status at 1 2. rewrite Hstatus.
  destruct (receiver_invariant config 5 frame_buffer (events_of i schedule))
    as (_ & _ & Hstream & Hret); [lia|].
  split.
  - intros Hp. by destruct (Hstream Hp).
  - intros Hp. by destruct (Hret Hp).
Qed.

End Relay.

End ReceiverRuns.

(** Runs that meet the hypotheses of the theorems above. *)
Lemma receiver_invariant_witness :
  0 ≤ 5
  ∧ phase_of (task (Demo.receive Demo.front_view [Connected (Ok tt)]))
    = Streaming
  ∧ get_connection_status
      (buffer (Demo.receive Demo.front_view [Connected (Ok tt)]))
      (camera_id Demo.front_view) = true.
Proof.
  assert (H5 : 0 ≤ 5) by lia.
  split; [exact H5|]. split; [reflexivity|].
  apply (receiver_invariant Demo.ndarray Demo.b64decode_str Demo.imdecode
           Demo.imencode Demo.b64encode_str Demo.front_view 5 frame_buffer
           [Connected (Ok tt)] H5).
  reflexivity.
Defined.

Lemma reconnects_without_backoff_witness :
  phase_of (task (start frame_buffer)) = Connecting
  ∧ [(1, TimeoutError); (2, ConnectionClosed)] ≠ @nil (datetime * exn)
  ∧ sleeps (log (Demo.receive Demo.front_view
                   [Connected (Ok tt); Received 1 (Raise TimeoutError);
                    Connected (Ok tt); Received 2 (Raise ConnectionClosed)]))
    = sleeps (log (start frame_buffer)).
Proof.
  assert (Hne : [(1, TimeoutError); (2, ConnectionClosed)]
                ≠ @nil (datetime * exn)) by discriminate.
  split; [reflexivity|]. split; [exact Hne|].
  exact (proj1 (proj2 (reconnects_without_backoff Demo.ndarray
                         Demo.b64decode_str Demo.imdecode Demo.imencode
                         Demo.b64encode_str Demo.front_view 5
                         (start frame_buffer)
                         [(1, TimeoutError); (2, ConnectionClosed)]
                         eq_refl Hne))).
Defined.


Lemma receiver_leaves_other_cameras_witness :
  "rear_view" ≠ camera_id Demo.front_view
  ∧ slot (buffer (Demo.receive Demo.front_view
                    [Connected (Ok tt);
                     Received 1 (Ok (Demo.image_message "aa"))]))
      "rear_view"
    = slot (buffer (start frame_buffer)) "rear_view".
Proof.
  assert (Hne : "rear_view" ≠ camera_id Demo.front_view) by discriminate.
  split; [exact Hne|].
  exact (receiver_leaves_other_cameras Demo.ndarray Demo.b64decode_str
           Demo.imdecode Demo.imencode Demo.b64encode_str Demo.front_view 5
           (start frame_buffer)
           [Connected (Ok tt); Received 1 (Ok (Demo.image_message "aa"))]
           "rear_view" Hne).
Defined.

Lemma cameras_run_independently_witness :
  CAMERA_CONFIGS !! 0%nat = Some Demo.front_view
  ∧ receiver_tasks
      (main Demo.ndarray Demo.b64decode_str Demo.imdecode Demo.imencode
         Demo.b64encode_str
         [(0%nat, Connected (Ok tt));
          (1%nat, Connected (Raise ConnectionRefusedError));
          (0%nat, Received 1 (Ok (Demo.image_message "aa")))]) !! 0%nat
    = Some (task (Demo.receive Demo.front_view
                    (events_of 0
                       [(0%nat, Connected (Ok tt));
                        (1%nat, Connected (Raise ConnectionRefusedError));
                        (0%nat, Received 1 (Ok (Demo.image_message "aa")))]))).
Proof.
  split; [reflexivity|].
  exact (proj1 (cameras_run_independently Demo.ndarray Demo.b64decode_str
                  Demo.imdecode Demo.imencode Demo.b64encode_str 0
                  Demo.front_view _ eq_refl)).
Defined.

Lemma dropped_messages_change_nothing_witness :
  phase_of (task (Demo.receive Demo.front_view [Connected (Ok tt)])) = Streaming
  ∧ (json_loads NotJson = Raise JSONDecodeError
     ∨ (∃ items, NotJson = Json (PyDict items)
                 ∧ dict_lookup "image" items = None)
     ∨ (∃ jpg_bytes,
          parse_message Demo.b64decode_str NotJson = Ok jpg_bytes
          ∧ re_encoded Demo.ndarray Demo.b64decode_str Demo.imdecode
              Demo.imencode Demo.b64encode_str NotJson = None))
  ∧ advance Demo.ndarray Demo.b64decode_str Demo.imdecode Demo.imencode
      Demo.b64encode_str Demo.front_view 5
      (Demo.receive Demo.front_view [Connected (Ok tt)])
      (Received 1 (Ok NotJson))
    = Demo.receive Demo.front_view [Connected (Ok tt)].
Proof.
  split; [reflexivity|]. split; [by left|].
  apply (dropped_messages_change_nothing Demo.ndarray Demo.b64decode_str
           Demo.imdecode Demo.imencode Demo.b64encode_str Demo.front_view 5
           (Demo.receive Demo.front_view [Connected (Ok tt)]) 1 NotJson
           eq_refl).
  by left.
Defined.

Lemma accepted_frame_is_broadcast_witness :
  phase_of (task (Demo.receive Demo.front_view [Connected (Ok tt)])) = Streaming
  ∧ re_encoded Demo.ndarray Demo.b64decode_str Demo.imdecode Demo.imencode
      Demo.b64encode_str (Demo.image_message "aa") = Some "aa"
  ∧ "aa" ≠ ""
  ∧ frame_counts (buffer (Demo.receive Demo.front_view [Connected (Ok tt)]))
      !! camera_id Demo.front_view = Some 0
  ∧ dict_lookup "image"
      (response Demo.isoformat Demo.front_view
         (buffer
            (advance Demo.ndarray Demo.b64decode_str Demo.imdecode
               Demo.imencode Demo.b64encode_str Demo.front_view 5
               (Demo.receive Demo.front_view [Connected (Ok tt)])
               (Received 1 (Ok (Demo.image_message "aa"))))) 2)
    = Some (PyStr "aa").
Proof.
  assert (Hne : "aa" ≠ "") by discriminate.
  split; [reflexivity|]. split; [reflexivity|]. split; [exact Hne|].
  split; [reflexivity|].
  exact (f_equal (dict_lookup "image")
           (proj1 (accepted_frame_is_broadcast Demo.ndarray Demo.b64decode_str
                     Demo.imdecode Demo.imencode Demo.b64encode_str
                     Demo.isoformat Demo.front_view 5
                     (Demo.receive Demo.front_view [Connected (Ok tt)])
                     1 (Demo.image_message "aa") "aa" 2 0
                     eq_refl eq_refl Hne eq_refl))).
Defined.

Lemma status_report_of_main_witness :
  CAMERA_CONFIGS !! 0%nat = Some Demo.front_view
  ∧ receiver_tasks
      (main Demo.ndarray Demo.b64decode_str Demo.imdecode Demo.imencode
         Demo.b64encode_str [(0%nat, Connected (Ok tt))]) !! 0%nat
    = Some {| phase_of := Streaming; retry_count := 0 |}
  ∧ ∃ cameras,
      get_status Demo.isoformat
        (shared (main Demo.ndarray Demo.b64decode_str Demo.imdecode
                   Demo.imencode Demo.b64encode_str
                   [(0%nat, Connected (Ok tt))])) 3
      = Ok (Demo.isoformat 3, cameras).
Proof.
  split; [reflexivity|]. split; [reflexivity|].
  destruct (status_report_of_main Demo.ndarray Demo.b64decode_str
              Demo.imdecode Demo.imencode Demo.b64encode_str Demo.isoformat
              0 Demo.front_view [(0%nat, Connected (Ok tt))] 3
              {| phase_of := Streaming; retry_count := 0 |}
              eq_refl eq_refl)
    as (cameras & _ & _ & Hok & _).
  exists cameras. exact Hok.
Defined.

(** * Further properties of the broadcast handler *)

Section BroadcastMore.
Context (isoformat : datetime → string).

Local Abbreviation response' := (response isoformat).
Local Abbreviation broadcast_camera_feed' := (broadcast_camera_feed isoformat).

(** However many frames were stored since the last tick, a tick sends
    the latest one only: when the last [set_frame] call for the camera
    stored a text that is not empty, the message's [image] is that
    text. *)
Theorem viewer_gets_latest_frame (config : CameraConfig)
    (self : CameraFrameBuffer) (calls : list call) (s : string)
    (now : datetime) :
  last_set_frame (camera_id config) calls = Some (Str s) →
  s ≠ "" →
  dict_lookup "image" (response' config (foldl perform self calls) now)
  = Some (PyStr s).
Proof.
  intros Hlast Hne.
  rewrite (response_present isoformat config _ now (str_encode s)).
  - simpl. by rewrite bytes_decode_encode.
  - by rewrite get_frame_performs, Hlast.
  - by destruct s.
Qed.

End BroadcastMore.

Lemma viewer_gets_latest_frame_witness :
  last_set_frame (camera_id Demo.front_view)
    [SetFrame "front_view" (Str "old") None 1;
     SetFrame "front_view" (Str "new") None 2] = Some (Str "new")
  ∧ "new" ≠ ""
  ∧ dict_lookup "image"
      (response Demo.isoformat Demo.front_view
         (foldl perform frame_buffer
            [SetFrame "front_view" (Str "old") None 1;
             SetFrame "front_view" (Str "new") None 2]) 3)
    = Some (PyStr "new").
Proof.
  assert (Hne : "new" ≠ "") by discriminate.
  split; [reflexivity|]. split; [exact Hne|].
  exact (viewer_gets_latest_frame Demo.isoformat Demo.front_view frame_buffer
           [SetFrame "front_view" (Str "old") None 1;
            SetFrame "front_view" (Str "new") None 2]
           "new" 3 eq_refl Hne).
Defined.

(** * Properties of the grayscale streamer *)

Section StreamerFacts.
Import CameraStreamer.
Context (ndarray : Type)
  (resize : ndarray → Z → Z → result ndarray)
  (cvtColor_gray : ndarray → result ndarray)
  (imencode : ndarray → Z → result (bool * bytes))
  (b64encode_str : bytes → string).

Local Abbreviation process_frame' :=
  (CameraStreamer.process_frame ndarray resize cvtColor_gray imencode
     b64encode_str).
Local Abbreviation broadcast_turn' :=
  (CameraStreamer.broadcast_turn ndarray resize cvtColor_gray imencode
     b64encode_str).

Implicit Types (self : CameraStreamer.t) (send : nat → result unit).

Lemma send_to_all_closed_only send sockets acc :
  (∀ ws, ws ∈ sockets → send ws = Ok tt ∨ send ws = Raise ConnectionClosed) →
  ∃ removed,
    send_to_all send sockets acc = Ok removed
    ∧ ∀ ws, ws ∈ removed
            ↔ ws ∈ acc ∨ (ws ∈ sockets ∧ send ws = Raise ConnectionClosed).
Proof.
  revert acc. induction sockets as [|ws sockets IH]; intros acc Hall; simpl.
  - exists acc. split; [done|]. intros ws. split; [by left|].
    intros [?|[Hin _]]; [done|]. by apply elem_of_nil in Hin.
  - destruct (Hall ws) as [Hok|Hclosed]; [by left|..].
    + rewrite Hok. destruct (IH acc) as (removed & Hsend & Hremoved).
      { intros ws' Hin. apply Hall. by right. }
      exists removed. split; [done|]. intros ws'. rewrite Hremoved.
      split; (intros [?|[Hin Hc]]; [by left|right]).
      * split; [by right|done].
      * apply elem_of_cons in Hin as [->|Hin]; [congruence|done].
    + rewrite Hclosed.
      destruct (IH ({[ws]} ∪ acc)) as (removed & Hsend & Hremoved).
      { intros ws' Hin. apply Hall. by right. }
      exists removed. split; [done|]. intros ws'. rewrite Hremoved.
      rewrite elem_of_union, elem_of_singleton.
      split.
      * intros [[->|?]|[Hin Hc]]; [right|by left|right].
        -- split; [by left|done].
        -- split; [by right|done].
      * intros [?|[Hin Hc]]; [by left; right|].
        apply elem_of_cons in Hin as [->|Hin]; [by left; left|by right].
Qed.

Lemma send_to_all_other_error send sockets acc ws e :
  ws ∈ sockets → send ws = Raise e → e ≠ ConnectionClosed →
  ∃ e', send_to_all send sockets acc = Raise e' ∧ e' ≠ ConnectionClosed.
Proof.
  revert acc. induction sockets as [|ws' sockets IH]; intros acc Hin Hsend He.
  { by apply elem_of_nil in Hin. }
  simpl. destruct (send ws') as [[]|e'] eqn:Hsend'.
  - apply IH; [|done..].
    apply elem_of_cons in Hin as [->|Hin]; [congruence|done].
  - destruct (decide (e' = ConnectionClosed)) as [->|Hne].
    + apply IH; [|done..].
      apply elem_of_cons in Hin as [->|Hin]; [congruence|done].
    + exists e'. by destruct e'.
Qed.

(** The turn when no handler runs during the sends and every send
    either succeeds or finds the connection closed. *)
Lemma broadcast_turn_closed_only self frame encoded send :
  process_frame' self frame = Ok encoded →
  clients self ≠ ∅ →
  (∀ ws, ws ∈ clients self →
         send ws = Ok tt ∨ send ws = Raise ConnectionClosed) →
  ∃ self',
    broadcast_turn' self true (Some frame) send
    = (self', Ok (Some [ ("camera", PyInt (cam_idx self));
                         ("image", PyStr encoded) ], FrameTick))
    ∧ cam_idx self' = cam_idx self
    ∧ ∀ ws, ws ∈ clients self' ↔ ws ∈ clients self ∧ send ws = Ok tt.
Proof.
  intros Hframe Hne Hall. unfold broadcast_turn. rewrite Hframe.
  rewrite decide_False by done.
  destruct (send_to_all_closed_only send (elements (clients self)) ∅)
    as (removed & -> & Hremoved).
  { intros ws Hin. apply Hall. by apply elem_of_elements. }
  eexists. split; [done|]. split; [done|].
  intros ws. simpl. rewrite elem_of_difference, Hremoved, elem_of_elements.
  split.
  - intros [Hin Hnot]. split; [done|].
    destruct (Hall ws Hin) as [?|Hclosed]; [done|].
    destruct Hnot. by right.
  - intros [Hin Hok]. split; [done|].
    intros [Hempty|[_ Hclosed]]; [by apply not_elem_of_empty in Hempty|].
    congruence.
Qed.

(** With no handler running during the sends, the loop over the live
    set is the loop over the sockets it held at the start. *)
Lemma for_clients_quiet send during sockets self acc :
  (∀ ws, ws ∈ sockets → during ws = None) →
  for_clients send during (size (clients self)) sockets self acc
  = match send_to_all send sockets acc with
    | Ok removed => (self, Ok removed)
    | Raise e => (self, Raise e)
    end.
Proof.
  revert acc. induction sockets as [|ws sockets IH]; intros acc Hquiet;
    cbn [for_clients send_to_all]; rewrite decide_True by done; [done|].
  rewrite (Hquiet ws) by (by left). cbn [from_option].
  assert (Hrest : ∀ ws', ws' ∈ sockets → during ws' = None).
  { intros ws' Hin. apply Hquiet. by right. }
  destruct (send ws) as [[]|e]; [by apply IH|].
  destruct e; try done. by apply IH.
Qed.

Lemma broadcast_turn_among_quiet self cap_ready grabbed send during :
  (∀ ws, ws ∈ clients self → during ws = None) →
  CameraStreamer.broadcast_turn_among ndarray resize cvtColor_gray imencode
    b64encode_str self cap_ready grabbed send during
  = broadcast_turn' self cap_ready grabbed send.
Proof.
  intros Hquiet. unfold broadcast_turn_among, broadcast_turn.
  destruct cap_ready; [|done]. destruct grabbed as [frame|]; [|done].
  destruct (process_frame' self frame) as [encoded|e]; [|done].
  case_decide; [done|].
  rewrite for_clients_quiet.
  - by destruct (send_to_all send (elements (clients self)) ∅).
  - intros ws Hin. apply Hquiet. by apply elem_of_elements.
Qed.

(** Once the set has another size than the iterator remembers, the
    loop raises [RuntimeError] at its next step and leaves the
    streamer as it is. *)
Lemma for_clients_resized send during si_used sockets self acc :
  size (clients self) ≠ si_used →
  for_clients send during si_used sockets self acc
  = (self, Raise RuntimeError).
Proof.
  intros Hsize. destruct sockets; cbn [for_clients];
    by rewrite decide_False.
Qed.

(** When a client connects or disconnects during one of the sends, and
    every send either succeeds or finds the connection closed, the
    loop raises [RuntimeError]: no client is removed, the closed ones
    included. *)
Lemma for_clients_disturbed send during sockets self acc ws h :
  ws ∈ sockets →
  during ws = Some h →
  (∀ ws' h', during ws' = Some h' →
             size (clients (handler_run self h')) ≠ size (clients self)) →
  (∀ ws', ws' ∈ sockets →
          send ws' = Ok tt ∨ send ws' = Raise ConnectionClosed) →
  ∃ ws' h',
    during ws' = Some h'
    ∧ for_clients send during (size (clients self)) sockets self acc
      = (handler_run self h', Raise RuntimeError).
Proof.
  revert acc. induction sockets as [|ws0 sockets IH];
    intros acc Hin Hduring Hsize Hall.
  { by apply elem_of_nil in Hin. }
  cbn [for_clients]. rewrite decide_True by done.
  assert (Hrest : ∀ ws', ws' ∈ sockets →
            send ws' = Ok tt ∨ send ws' = Raise ConnectionClosed).
  { intros ws' Hin'. apply Hall. by right. }
  destruct (during ws0) as [h0|] eqn:Hduring0; cbn [from_option].
  - exists ws0, h0. split; [done|].
    destruct (Hall ws0) as [->| ->]; [by left|..];
      by rewrite for_clients_resized by (by apply (Hsize ws0)).
  - assert (Hin' : ws ∈ sockets).
    { apply elem_of_cons in Hin as [->|Hin]; [congruence|done]. }
    destruct (Hall ws0) as [->| ->]; [by left|..]; by apply IH.
Qed.

(** When a frame is captured, no client connects or disconnects while
    the sends are under way, and every send either succeeds or finds
    the connection closed, the turn ends normally, every client has
    been sent the same message, and the clients left are exactly those
    whose send succeeded: each closed one is removed, no other is. *)
Theorem closed_clients_are_dropped self frame encoded send during :
  CameraStreamer.process_frame ndarray resize cvtColor_gray imencode
    b64encode_str self frame = Ok encoded →
  clients self ≠ ∅ →
  (∀ ws, ws ∈ clients self → during ws = None) →
  (∀ ws, ws ∈ clients self →
         send ws = Ok tt ∨ send ws = Raise ConnectionClosed) →
  ∃ self',
    CameraStreamer.broadcast_turn_among ndarray resize cvtColor_gray
      imencode b64encode_str self true (Some frame) send during
    = (self', Ok (Some [ ("camera", PyInt (cam_idx self));
                         ("image", PyStr encoded) ], FrameTick))
    ∧ cam_idx self' = cam_idx self
    ∧ ∀ ws, ws ∈ clients self' ↔ ws ∈ clients self ∧ send ws = Ok tt.
Proof.
  intros Hframe Hne Hquiet Hall.
  rewrite broadcast_turn_among_quiet by done.
  by apply broadcast_turn_closed_only.
Qed.

(** A client that connects or disconnects during one of the sends ends
    [broadcast_frames] with [RuntimeError], even though every send
    succeeded or found the connection closed: the set of clients is as
    that handler left it, and the clients found closed are not
    removed. *)
Theorem handler_during_send_escapes self frame encoded send during ws h :
  CameraStreamer.process_frame ndarray resize cvtColor_gray imencode
    b64encode_str self frame = Ok encoded →
  ws ∈ clients self →
  during ws = Some h →
  (∀ ws' h', during ws' = Some h' →
             size (clients (handler_run self h')) ≠ size (clients self)) →
  (∀ ws', ws' ∈ clients self →
          send ws' = Ok tt ∨ send ws' = Raise ConnectionClosed) →
  ∃ ws' h',
    during ws' = Some h'
    ∧ CameraStreamer.broadcast_turn_among ndarray resize cvtColor_gray
        imencode b64encode_str self true (Some frame) send during
      = (handler_run self h', Raise RuntimeError).
Proof.
  intros Hframe Hin Hduring Hsize Hall. unfold broadcast_turn_among.
  rewrite Hframe. rewrite decide_False.
  - destruct (for_clients_disturbed send during (elements (clients self))
                self ∅ ws h) as (ws' & h' & Hd & ->); [|done..| |by eauto].
    + by apply elem_of_elements.
    + intros ws' Hin'. apply Hall. by apply elem_of_elements.
  - intros Hempty. rewrite Hempty in Hin. by apply not_elem_of_empty in Hin.
Qed.


(** A client that [broadcast_frames] has removed makes its own
    [handler] raise [KeyError] when the socket's closing wakes it: the
    [finally] clause removes the socket a second time. *)
Theorem dropped_client_handler_raises self frame encoded send ws :
  CameraStreamer.process_frame ndarray resize cvtColor_gray imencode
    b64encode_str self frame = Ok encoded →
  (∀ ws', ws' ∈ clients self →
          send ws' = Ok tt ∨ send ws' = Raise ConnectionClosed) →
  ws ∈ clients self →
  send ws = Raise ConnectionClosed →
  let self' := (CameraStreamer.broadcast_turn ndarray resize cvtColor_gray imencode
      b64encode_str self true (Some frame) send).1 in
  handler_exit self' ws = (self', Raise KeyError).
Proof.
  intros Hframe Hall Hin Hclosed.
  destruct (broadcast_turn_closed_only self frame encoded send Hframe)
    as (self' & Hturn & _ & Hclients); [|done|].
  { intros Hempty. rewrite Hempty in Hin. by apply not_elem_of_empty in Hin. }
  cbv zeta. rewrite Hturn. cbn [fst]. unfold handler_exit.
  rewrite decide_False; [done|].
  rewrite Hclients. intros [_ Hok]. congruence.
Qed.

(** A handler that enters and leaves with no broadcast in between
    leaves the set of clients as it found it. *)
Theorem handler_enter_exit self ws :
  ws ∉ clients self →
  handler_exit (handler_enter self ws) ws = (self, Ok tt).
Proof.
  intros Hnew. unfold handler_exit, handler_enter. simpl.
  rewrite decide_True.
  - f_equal. destruct self as [? ? ? ? ? cs ?]. unfold with_clients. simpl in *.
    f_equal. apply set_eq. intros x.
    rewrite elem_of_difference, elem_of_union, elem_of_singleton.
    split; [by intros [[->|?] ?]|]. intros Hx. split; [by right|].
    by intros ->.
  - apply elem_of_union. left. by apply elem_of_singleton.
Qed.

End StreamerFacts.

(** Streamers that meet the hypotheses of the theorems above. *)
Lemma closed_clients_are_dropped_witness :
  CameraStreamer.process_frame StreamerDemo.ndarray StreamerDemo.resize
    StreamerDemo.cvtColor_gray StreamerDemo.imencode
    StreamerDemo.b64encode_str StreamerDemo.two_clients
    (str_encode "abc") = Ok "abc"
  ∧ CameraStreamer.clients StreamerDemo.two_clients ≠ ∅
  ∧ (∀ ws, ws ∈ CameraStreamer.clients StreamerDemo.two_clients →
           StreamerDemo.nobody ws = None)
  ∧ (∀ ws, ws ∈ CameraStreamer.clients StreamerDemo.two_clients →
           StreamerDemo.second_closed ws = Ok tt
           ∨ StreamerDemo.second_closed ws = Raise ConnectionClosed)
  ∧ ∃ self',
      CameraStreamer.broadcast_turn_among StreamerDemo.ndarray
        StreamerDemo.resize StreamerDemo.cvtColor_gray StreamerDemo.imencode
        StreamerDemo.b64encode_str StreamerDemo.two_clients true
        (Some (str_encode "abc")) StreamerDemo.second_closed
        StreamerDemo.nobody
      = (self', Ok (Some [ ("camera", PyInt 0); ("image", PyStr "abc") ],
                    CameraStreamer.FrameTick)).
Proof.
  assert (Hne : CameraStreamer.clients StreamerDemo.two_clients ≠ ∅).
  { intros Hempty. apply (not_elem_of_empty (C:=gset nat) 2%nat).
    rewrite <- Hempty. apply elem_of_union. left. by apply elem_of_singleton. }
  assert (Hquiet : ∀ ws, ws ∈ CameraStreamer.clients StreamerDemo.two_clients →
                         StreamerDemo.nobody ws = None).
  { intros ws _. reflexivity. }
  assert (Hall : ∀ ws, ws ∈ CameraStreamer.clients StreamerDemo.two_clients →
                       StreamerDemo.second_closed ws = Ok tt
                       ∨ StreamerDemo.second_closed ws = Raise ConnectionClosed).
  { intros ws _. unfold StreamerDemo.second_closed. case_decide; eauto. }
  split; [reflexivity|]. split; [exact Hne|]. split; [exact Hquiet|].
  split; [exact Hall|].
  destruct (closed_clients_are_dropped StreamerDemo.ndarray StreamerDemo.resize
              StreamerDemo.cvtColor_gray StreamerDemo.imencode
              StreamerDemo.b64encode_str StreamerDemo.two_clients
              (str_encode "abc") "abc" StreamerDemo.second_closed
              StreamerDemo.nobody eq_refl Hne Hquiet Hall)
    as (self' & Hturn & _).
  exists self'. exact Hturn.
Defined.

Lemma handler_during_send_escapes_witness :
  CameraStreamer.process_frame StreamerDemo.ndarray StreamerDemo.resize
    StreamerDemo.cvtColor_gray StreamerDemo.imencode
    StreamerDemo.b64encode_str StreamerDemo.two_clients
    (str_encode "abc") = Ok "abc"
  ∧ 1%nat ∈ CameraStreamer.clients StreamerDemo.two_clients
  ∧ StreamerDemo.third_connects 1 = Some (CameraStreamer.Enter 3)
  ∧ (∀ ws h, StreamerDemo.third_connects ws = Some h →
             size (CameraStreamer.clients
                     (CameraStreamer.handler_run StreamerDemo.two_clients h))
             ≠ size (CameraStreamer.clients StreamerDemo.two_clients))
  ∧ (∀ ws, ws ∈ CameraStreamer.clients StreamerDemo.two_clients →
           StreamerDemo.second_closed ws = Ok tt
           ∨ StreamerDemo.second_closed ws = Raise ConnectionClosed)
  ∧ ∃ ws h,
      StreamerDemo.third_connects ws = Some h
      ∧ CameraStreamer.broadcast_turn_among StreamerDemo.ndarray
          StreamerDemo.resize StreamerDemo.cvtColor_gray
          StreamerDemo.imencode StreamerDemo.b64encode_str
          StreamerDemo.two_clients true (Some (str_encode "abc"))
          StreamerDemo.second_closed StreamerDemo.third_connects
        = (CameraStreamer.handler_run StreamerDemo.two_clients h,
           Raise RuntimeError).
Proof.
  assert (Hin : 1%nat ∈ CameraStreamer.clients StreamerDemo.two_clients).
  { apply elem_of_union. right. apply elem_of_union. left.
    by apply elem_of_singleton. }
  assert (Hsize : ∀ ws h, StreamerDemo.third_connects ws = Some h →
            size (CameraStreamer.clients
                    (CameraStreamer.handler_run StreamerDemo.two_clients h))
            ≠ size (CameraStreamer.clients StreamerDemo.two_clients)).
  { intros ws h. unfold StreamerDemo.third_connects.
    case_decide; [|discriminate]. intros [= <-]. vm_compute. discriminate. }
  assert (Hall : ∀ ws, ws ∈ CameraStreamer.clients StreamerDemo.two_clients →
                       StreamerDemo.second_closed ws = Ok tt
                       ∨ StreamerDemo.second_closed ws = Raise ConnectionClosed).
  { intros ws _. unfold StreamerDemo.second_closed. case_decide; eauto. }
  split; [reflexivity|]. split; [exact Hin|]. split; [reflexivity|].
  split; [exact Hsize|]. split; [exact Hall|].
  exact (handler_during_send_escapes StreamerDemo.ndarray StreamerDemo.resize
           StreamerDemo.cvtColor_gray StreamerDemo.imencode
           StreamerDemo.b64encode_str StreamerDemo.two_clients
           (str_encode "abc") "abc" StreamerDemo.second_closed
           StreamerDemo.third_connects 1%nat (CameraStreamer.Enter 3)
           eq_refl Hin eq_refl Hsize Hall).
Defined.

(** With a third client connecting during the first send, the turn of
    the two-client streamer ends with [RuntimeError] and three
    clients. *)
Lemma third_client_connects_during_send :
  let after :=
    CameraStreamer.broadcast_turn_among StreamerDemo.ndarray
      StreamerDemo.resize StreamerDemo.cvtColor_gray StreamerDemo.imencode
      StreamerDemo.b64encode_str StreamerDemo.two_clients true
      (Some (str_encode "abc")) StreamerDemo.second_closed
      StreamerDemo.third_connects in
  after.2 = Raise RuntimeError
  ∧ size (CameraStreamer.clients after.1) = 3%nat.
Proof. vm_compute. split; reflexivity. Qed.


Lemma dropped_client_handler_raises_witness :
  CameraStreamer.process_frame StreamerDemo.ndarray StreamerDemo.resize
    StreamerDemo.cvtColor_gray StreamerDemo.imencode
    StreamerDemo.b64encode_str StreamerDemo.two_clients
    (str_encode "abc") = Ok "abc"
  ∧ (∀ ws, ws ∈ CameraStreamer.clients StreamerDemo.two_clients →
           StreamerDemo.second_closed ws = Ok tt
           ∨ StreamerDemo.second_closed ws = Raise ConnectionClosed)
  ∧ 2%nat ∈ CameraStreamer.clients StreamerDemo.two_clients
  ∧ StreamerDemo.second_closed 2 = Raise ConnectionClosed
  ∧ (CameraStreamer.handler_exit
       (StreamerDemo.turn StreamerDemo.two_clients true
          (Some (str_encode "abc")) StreamerDemo.second_closed).1 2%nat).2
    = Raise KeyError.
Proof.
  assert (Hin : 2%nat ∈ CameraStreamer.clients StreamerDemo.two_clients).
  { apply elem_of_union. left. by apply elem_of_singleton. }
  assert (Hall : ∀ ws, ws ∈ CameraStreamer.clients StreamerDemo.two_clients →
                       StreamerDemo.second_closed ws = Ok tt
                       ∨ StreamerDemo.second_closed ws = Raise ConnectionClosed).
  { intros ws _. unfold StreamerDemo.second_closed. case_decide; eauto. }
  split; [reflexivity|]. split; [exact Hall|]. split; [exact Hin|].
  split; [reflexivity|].
  exact (f_equal snd
           (dropped_client_handler_raises StreamerDemo.ndarray
              StreamerDemo.resize StreamerDemo.cvtColor_gray
              StreamerDemo.imencode StreamerDemo.b64encode_str
              StreamerDemo.two_clients (str_encode "abc") "abc"
              StreamerDemo.second_closed 2%nat eq_refl Hall Hin eq_refl)).
Defined.

Lemma handler_enter_exit_witness :
  (3%nat ∉ CameraStreamer.clients StreamerDemo.two_clients)
  ∧ CameraStreamer.handler_exit
      (CameraStreamer.handler_enter StreamerDemo.two_clients 3%nat) 3%nat
    = (StreamerDemo.two_clients, Ok tt).
Proof.
  assert (Hnew : 3%nat ∉ CameraStreamer.clients StreamerDemo.two_clients).
  { intros Hin. apply elem_of_union in Hin as [Hin|Hin].
    - by apply elem_of_singleton in Hin.
    - apply elem_of_union in Hin as [Hin|Hin].
      + by apply elem_of_singleton in Hin.
      + by apply not_elem_of_empty in Hin. }
  split; [exact Hnew|].
  exact (handler_enter_exit StreamerDemo.two_clients 3%nat Hnew).
Defined.

(** * The messages viewers are sent while [main] runs *)

Section BroadcastOfMain.
Context (ndarray : Type)
  (b64decode_str : string → option bytes)
  (imdecode : bytes → result (option ndarray))
  (imencode : ndarray → result (bool * bytes))
  (b64encode_str : bytes → string)
  (isoformat : datetime → string).

(** What the receiver hands to [set_frame] is always a text the
    base64 encoder produced. *)
Lemma re_encoded_base64 d s :
  re_encoded ndarray b64decode_str imdecode imencode b64encode_str d = Some s →
  ∃ buffer, s = b64encode_str buffer.
Proof.
  unfold re_encoded.
  destruct (parse_message b64decode_str d) as [jpg|e]; [|done].
  destruct (imdecode jpg) as [[frame|]|e]; [|done..].
  destruct (imencode frame) as [[[] buffer]|e]; [|done..].
  intros [= <-]. eauto.
Qed.

(** The receivers are the only writers of the buffer [main] shares, so
    every frame it holds is the encoding of a base64 text. *)
Lemma main_frames_base64 schedule id b :
  frames (shared (main ndarray b64decode_str imdecode imencode b64encode_str
                    schedule)) !! id = Some (Some b) →
  ∃ buffer, b = str_encode (b64encode_str buffer).
Proof.
  unfold main.
  assert (Hgen : ∀ sys,
    (∀ id b, frames (shared sys) !! id = Some (Some b) →
             ∃ buffer, b = str_encode (b64encode_str buffer)) →
    ∀ id b,
      frames (shared (foldl (resume ndarray b64decode_str imdecode imencode
                               b64encode_str) sys schedule)) !! id
      = Some (Some b) →
      ∃ buffer, b = str_encode (b64encode_str buffer)).
  { induction schedule as [|[j ev] schedule IH]; intros sys Hsys; [done|].
    cbn [foldl]. apply IH. unfold resume. cbn [fst snd].
    destruct (CAMERA_CONFIGS !! j) as [config|]; [|done].
    destruct (receiver_tasks sys !! j) as [t|]; [|done].
    assert (Hstep : ∀ id b,
      frames (step ndarray b64decode_str imdecode imencode b64encode_str
                config 5 t ev (shared sys)).1 !! id = Some (Some b) →
      ∃ buffer, b = str_encode (b64encode_str buffer)).
    { rewrite step_buffer.
      destruct (phase_of t), ev as [[[]|e]|now [d|e]]; try done.
      - destruct (re_encoded ndarray b64decode_str imdecode imencode
                    b64encode_str d) as [s|] eqn:Hd.
        + rewrite (stream_iteration_accept _ _ _ _ _ _ _ _ s) by done.
          cbn [fst]. rewrite set_frame_frames. intros id' b'.
          destruct (decide (camera_id config = id')) as [->|Hne].
          * rewrite lookup_insert_eq. intros [= <-].
            destruct (re_encoded_base64 d s Hd) as [buffer ->]. eauto.
          * rewrite lookup_insert_ne by done. apply Hsys.
        + by rewrite stream_iteration_reject.
      - by rewrite stream_iteration_raise. }
    by destruct (step ndarray b64decode_str imdecode imencode b64encode_str
                   config 5 t ev (shared sys)) as [s1 [[t1 eff1]|e1]]. }
  apply Hgen. intros id' b'. unfold main_start. cbn [shared].
  simpl. rewrite dict_of_configs_lookup. by case_decide.
Qed.

(** C8 (amended). Every message the handler passes to [websocket.send]
    while [main] runs, whatever the receivers have done by each tick,
    has the fields [camera_id], [camera_name], [timestamp] (the ISO
    form of the tick's time), [image], [is_grayscale] (always false)
    and [source_connected], in this order, with [image] a base64 text,
    or with [image] null and a seventh field [message]; and no other
    field. *)
Theorem C8_broadcast_message_shape (config : CameraConfig)
    (ticks : list (list (nat * event) * datetime * result unit)) :
  Forall (broadcast_shape b64encode_str isoformat)
    (broadcast_camera_feed isoformat config
       ((λ tick, (shared (main ndarray b64decode_str imdecode imencode
                            b64encode_str tick.1.1),
                  tick.1.2, tick.2)) <$> ticks)).
Proof.
  induction ticks as [|[[schedule now] sent] ticks IH]; [constructor|].
  rewrite fmap_cons. cbn [broadcast_camera_feed fst snd].
  constructor; [|destruct sent; [exact IH|constructor]].
  exists (camera_id config), (name config), now,
    (get_connection_status
       (shared (main ndarray b64decode_str imdecode imencode b64encode_str
                  schedule)) (camera_id config)).
  unfold response, get_frame.
  destruct (frames (shared (main ndarray b64decode_str imdecode imencode
                              b64encode_str schedule)) !! camera_id config)
    as [[b|]|] eqn:Hframe; [|by right..].
  destruct (main_frames_base64 schedule _ _ Hframe) as [buffer ->].
  cbv zeta. cbn [default]. destruct (truthy _); [|by right].
  left. exists buffer. cbn [from_option id]. by rewrite bytes_decode_encode.
Qed.

End BroadcastOfMain.
